(** * ProjectHub: the storage layer and the HTTP routes, verified

    A shallow embedding of [server/storage.ts] (the [DatabaseStorage] class),
    [server/routes.ts] (the [authenticateToken] middleware and the nine
    routes) and [shared/schema.ts] (the two tables and the zod schemas).

    - The relational store is a pair of tables, each a list of rows in heap
      order.  The constraints the schema declares ([primaryKey], [unique],
      [references]) are checked by the insert operations, which fail with a
      database error exactly where the schema says the store refuses the row.
    - The columns are typed.  An id is a value of the store's [uuid] type,
      and a text that a query compares with an id column is first read as a
      [uuid]: a text the store cannot read makes the query throw, and two
      spellings of one value select the same rows.  A text written to a
      [varchar(n)] or [text] column, and a [Date] written to a [timestamp]
      column, may be refused by the store as well; a date the store takes
      is kept as the driver reads it back.  A text is either kept as it is
      or refused: where the store would alter a text on the way in (it cuts
      a text too long for a [varchar] column whose excess is only spaces),
      the model refuses it.  The statements below are about texts that the
      store keeps as they are, or hold whether it keeps, cuts or refuses
      the text.
    - What the process cannot decide by itself (the clock, the random uuid
      the store draws for a new row, the bcrypt salt) is an explicit input of
      every request, the record [Env].
    - The libraries the routes call (jsonwebtoken, bcrypt, the parts of zod
      and of [Date] that are not schema text) and the conversions of the
      store are the fields of the class [Externals]; nothing is assumed
      about them except where a statement says so.
    - A JavaScript string is held as its UTF-8 spelling, and its [length]
      is the number of its UTF-16 code units, as JavaScript counts it.
    - The repository holds two copies of the schema file.  The tables are
      the same in both; the zod schemas below are those of the later copy,
      whose fields also refuse the empty string. *)

From Stdlib Require Import ZArith NArith String Ascii.
From stdpp Require Import base tactics option list strings numbers sorting.

Set Default Proof Using "Type".
Set Warnings "-register-all".

(** ** JavaScript values: request bodies and what [res.json] is given *)

Inductive value : Type :=
| VNull
| VBool (b : bool)
| VNum (n : Z)
| VStr (s : string)
| VDate (t : Z)
| VArr (xs : list value)
| VObj (fields : list (string * value)).

(** [obj[k]]: [None] is JavaScript's [undefined]. *)
Fixpoint assoc (k : string) (fields : list (string * value)) : option value :=
  match fields with
  | [] => None
  | (k', v) :: rest => if decide (k' = k) then Some v else assoc k rest
  end.

Definition prop (k : string) (v : value) : option value :=
  match v with
  | VObj fields => assoc k fields
  | _ => None
  end.

(** A nullable column read back from the store. *)
Definition of_nullable {A} (f : A -> value) (x : option A) : value :=
  match x with
  | Some a => f a
  | None => VNull
  end.

(** Whether a key occurs anywhere inside a value, at any depth. *)
Fixpoint has_key (k : string) (v : value) : bool :=
  match v with
  | VArr xs => existsb (has_key k) xs
  | VObj fields =>
      existsb (fun kv => bool_decide (fst kv = k) || has_key k (snd kv)) fields
  | _ => false
  end.

(** The UTF-16 code units that the character starting with a byte of the
    UTF-8 spelling takes: one for a character of one, two or three bytes,
    two for a character of four bytes, and none for a continuation byte. *)
Definition utf16_units (c : ascii) : nat :=
  let n := N_of_ascii c in
  if (n <? 128)%N then 1
  else if (n <? 192)%N then 0
  else if (n <? 240)%N then 1
  else 2.

(** [s.length]. *)
Fixpoint js_length (s : string) : nat :=
  match s with
  | EmptyString => 0
  | String c rest => utf16_units c + js_length rest
  end.

(** ** The libraries the routes call, and the store's conversions *)

(** A value of the store's [uuid] type.  Texts that spell the same value
    (in upper and in lower case, say) are read as one [uuid]. *)
Inductive uuid : Type := Uuid (n : N).

#[global] Instance uuid_eq_dec : EqDecision uuid.
Proof. solve_decision. Defined.

Module Claims.
(** The payload the routes sign: [{ userId, email }]. *)
Record t : Type := mk {
  userId : string;
  email : string;
}.
End Claims.

Class Externals : Type := {
  (** [jwt.sign(payload, secret, { expiresIn })] at a given clock. *)
  jwt_sign : Claims.t -> string -> string -> Z -> string;
  (** [jwt.verify(token, secret, callback)] at a given clock: [None] is a
      call of the callback with [err], whatever the cause. *)
  jwt_verify : string -> string -> Z -> option Claims.t;
  (** [bcrypt.hash(data, rounds)] with the salt it draws. *)
  bcrypt_hash : string -> Z -> string -> string;
  (** [bcrypt.compare(data, digest)]. *)
  bcrypt_compare : string -> string -> bool;
  (** zod's test behind [.email()]. *)
  zod_email : string -> bool;
  (** zod's own message for an input of the wrong type (or a missing one),
      given the expected type. *)
  zod_invalid_type : string -> option value -> string;
  (** zod's own message for a string outside an enum. *)
  zod_invalid_enum_value : list string -> string -> string;
  (** [Date.parse]: [None] is [NaN]. *)
  Date_parse : string -> option Z;
  (** The store reading a text as a [uuid]: [None] when it refuses the
      text (invalid input syntax, SQLSTATE 22P02). *)
  uuid_in : string -> option uuid;
  (** A [uuid] as the driver hands it to JavaScript. *)
  uuid_out : uuid -> string;
  (** Whether the store takes a text into a [varchar(n)] column and keeps
      it as it is (not when it is too long for the column, 22001). *)
  pg_varchar : nat -> string -> bool;
  (** Whether the store takes a text into a [text] column and keeps it as
      it is. *)
  pg_text : string -> bool;
  (** A [Date] written to a [timestamp] column, as the driver reads it
      back; [None] when the store refuses it (out of range, 22008). *)
  pg_timestamp : Z -> option Z;
}.

(** ** The two tables ([shared/schema.ts]) *)

Module User.
Record t : Type := mk {
  id : uuid;
  name : string;
  email : string;
  password : string;
  createdAt : option Z;
  updatedAt : option Z;
}.
End User.

Module Project.
Record t : Type := mk {
  id : uuid;
  name : string;
  description : option string;
  status : string;
  startDate : Z;
  userId : uuid;
  createdAt : option Z;
  updatedAt : option Z;
}.

(** The row as [res.json] receives it. *)
Definition to_value `{Externals} (p : t) : value :=
  VObj [ ("id", VStr (uuid_out (id p)));
         ("name", VStr (name p));
         ("description", of_nullable VStr (description p));
         ("status", VStr (status p));
         ("startDate", VDate (startDate p));
         ("userId", VStr (uuid_out (userId p)));
         ("createdAt", of_nullable VDate (createdAt p));
         ("updatedAt", of_nullable VDate (updatedAt p)) ]%string.
End Project.

#[global] Instance user_eq_dec : EqDecision User.t.
Proof. solve_decision. Defined.

#[global] Instance project_eq_dec : EqDecision Project.t.
Proof. solve_decision. Defined.

(** [InsertUser]: the insert schema of [users] without [id], [createdAt],
    [updatedAt]. *)
Record InsertUser : Type := {
  iu_name : string;
  iu_email : string;
  iu_password : string;
}.

(** [InsertProject & { userId }] as [createProject] receives it.  [status]
    has a column default, so it may be left out; [description] is nullable
    ([None] is both [null] and [undefined], which an insert stores alike).
    The owner is the text the token carries. *)
Record NewProject : Type := {
  np_name : string;
  np_description : option string;
  np_status : option string;
  np_startDate : Z;
  np_userId : string;
}.

(** [Partial<InsertProject>]: every field may be left out ([None], the
    [undefined] that drizzle's [set] skips).  A supplied [description] is
    [Some None] for [null] and [Some (Some s)] for a string. *)
Record ProjectUpdates : Type := {
  up_name : option string;
  up_description : option (option string);
  up_status : option string;
  up_startDate : option Z;
}.

Record Db : Type := {
  users : list User.t;
  projects : list Project.t;
}.

Definition empty_db : Db := {| users := []; projects := [] |}.

(** What a request takes from outside the process: the clock (of the
    process and of the store alike), the id the store draws for a new row
    and the salt bcrypt draws. *)
Record Env : Type := {
  now : Z;
  fresh_uuid : uuid;
  salt : string;
}.

(** What a query throws: a constraint violation, whose text names the
    constraint, or a data exception (SQLSTATE class 22) for a text or a
    value that the store does not take. *)
Inductive DbError : Type :=
| ConstraintViolation (constraint : string)
| DataException.

(** ** [DatabaseStorage] *)

Definition owned_by (userId : uuid) (p : Project.t) : Prop :=
  Project.userId p = userId.

Definition id_and_owner (id userId : uuid) (p : Project.t) : Prop :=
  Project.id p = id ∧ Project.userId p = userId.

#[global] Instance owned_by_dec userId p : Decision (owned_by userId p).
Proof. unfold owned_by. apply _. Defined.

#[global] Instance id_and_owner_dec id userId p :
  Decision (id_and_owner id userId p).
Proof. unfold id_and_owner. apply _. Defined.

(** [ORDER BY created_at] (ascending, so nulls last). *)
Definition created_le (p q : Project.t) : Prop :=
  match Project.createdAt p, Project.createdAt q with
  | Some a, Some b => (a <= b)%Z
  | _, None => True
  | None, Some _ => False
  end.

#[global] Instance created_le_dec p q : Decision (created_le p q).
Proof.
  unfold created_le.
  destruct (Project.createdAt p), (Project.createdAt q); apply _.
Defined.

(** [.set({ ...updates, updatedAt: new Date() })] on one row, with the
    values as the store keeps them. *)
Definition set_fields (values : ProjectUpdates) (updatedAt : Z) (p : Project.t)
  : Project.t :=
  Project.mk (Project.id p)
             (default (Project.name p) (up_name values))
             (default (Project.description p) (up_description values))
             (default (Project.status p) (up_status values))
             (default (Project.startDate p) (up_startDate values))
             (Project.userId p)
             (Project.createdAt p)
             (Some updatedAt).

Record Stats : Type := {
  total : nat;
  pendente : nat;
  andamento : nat;
  concluido : nat;
}.

Section DatabaseStorage.
Context `{Externals}.

(** Every query converts its parameters to the types of the columns
    before it looks at a row, and throws when the store refuses one. *)

Definition getUser (id : string) (db : Db) : DbError + option User.t :=
  match uuid_in id with
  | Some id => inr (head (filter (fun u => User.id u = id) (users db)))
  | None => inl DataException
  end.

Definition getUserByEmail (email : string) (db : Db) : option User.t :=
  head (filter (fun u => User.email u = email) (users db)).

(** The insert: the values must fit their columns, the id the store draws
    must be new ([primaryKey]) and the email must be new ([unique]). *)
Definition createUser (insertUser : InsertUser) (env : Env) (db : Db)
  : DbError + (User.t * Db) :=
  if negb (pg_varchar 255 (iu_name insertUser)
           && pg_varchar 255 (iu_email insertUser)
           && pg_text (iu_password insertUser)) then
    inl DataException
  else if decide (fresh_uuid env ∈ User.id <$> users db) then
    inl (ConstraintViolation "users_pkey")
  else if decide (iu_email insertUser ∈ User.email <$> users db) then
    inl (ConstraintViolation "users_email_unique")
  else
    let user :=
      User.mk (fresh_uuid env) (iu_name insertUser) (iu_email insertUser)
              (iu_password insertUser) (Some (now env)) (Some (now env)) in
    inr (user, {| users := users db ++ [user]; projects := projects db |}).

Definition getProjects (userId : string) (db : Db) : DbError + list Project.t :=
  match uuid_in userId with
  | Some userId =>
      inr (merge_sort created_le (filter (owned_by userId) (projects db)))
  | None => inl DataException
  end.

Definition getProject (id userId : string) (db : Db)
  : DbError + option Project.t :=
  match uuid_in id, uuid_in userId with
  | Some id, Some userId =>
      inr (head (filter (id_and_owner id userId) (projects db)))
  | _, _ => inl DataException
  end.

(** The insert: the owner must be a uuid and the values must fit their
    columns, the id the store draws must be new ([primaryKey]) and the
    owner must be a stored user ([references]).  The row is returned as
    the store read it back ([returning()]). *)
Definition createProject (projectData : NewProject) (env : Env) (db : Db)
  : DbError + (Project.t * Db) :=
  let status := default "pendente"%string (np_status projectData) in
  match uuid_in (np_userId projectData),
        pg_timestamp (np_startDate projectData) with
  | Some userId, Some startDate =>
      if negb (pg_varchar 255 (np_name projectData)
               && from_option pg_text true (np_description projectData)
               && pg_varchar 50 status) then
        inl DataException
      else if decide (fresh_uuid env ∈ Project.id <$> projects db) then
        inl (ConstraintViolation "projects_pkey")
      else if decide (userId ∈ User.id <$> users db) then
        let project :=
          Project.mk (fresh_uuid env) (np_name projectData)
                     (np_description projectData) status startDate userId
                     (Some (now env)) (Some (now env)) in
        inr (project,
             {| users := users db; projects := projects db ++ [project] |})
      else
        inl (ConstraintViolation "projects_user_id_users_id_fk")
  | _, _ => inl DataException
  end.

(** The supplied values of a [set] as the store keeps them; [None] when it
    refuses one of them. *)
Definition stored (updates : ProjectUpdates) : option ProjectUpdates :=
  if from_option (pg_varchar 255) true (up_name updates)
     && from_option (from_option pg_text true) true (up_description updates)
     && from_option (pg_varchar 50) true (up_status updates)
  then
    match up_startDate updates with
    | None => Some updates
    | Some startDate =>
        match pg_timestamp startDate with
        | Some startDate =>
            Some {| up_name := up_name updates;
                    up_description := up_description updates;
                    up_status := up_status updates;
                    up_startDate := Some startDate |}
        | None => None
        end
    end
  else None.

Definition updateProject (id userId : string) (updates : ProjectUpdates)
    (env : Env) (db : Db) : DbError + (option Project.t * Db) :=
  match uuid_in id, uuid_in userId, stored updates, pg_timestamp (now env) with
  | Some id, Some userId, Some values, Some updatedAt =>
      let hit := id_and_owner id userId in
      let returning := set_fields values updatedAt <$> filter hit (projects db) in
      inr (head returning,
           {| users := users db;
              projects :=
                (fun p => if decide (hit p) then set_fields values updatedAt p
                          else p)
                  <$> projects db |})
  | _, _, _, _ => inl DataException
  end.

Definition deleteProject (id userId : string) (db : Db)
  : DbError + (bool * Db) :=
  match uuid_in id, uuid_in userId with
  | Some id, Some userId =>
      let hit := id_and_owner id userId in
      let rowCount := length (filter hit (projects db)) in
      inr (bool_decide (0 < rowCount),
           {| users := users db;
              projects := filter (fun p => ¬ hit p) (projects db) |})
  | _, _ => inl DataException
  end.

Definition getProjectStats (userId : string) (db : Db) : DbError + Stats :=
  match uuid_in userId with
  | Some userId =>
      let userProjects := filter (owned_by userId) (projects db) in
      inr {| total := length userProjects;
             pendente :=
               length (filter (fun p => Project.status p = "pendente"%string)
                              userProjects);
             andamento :=
               length (filter (fun p => Project.status p = "andamento"%string)
                              userProjects);
             concluido :=
               length (filter (fun p => Project.status p = "concluido"%string)
                              userProjects) |}
  | None => inl DataException
  end.
End DatabaseStorage.

(** ** The zod schemas ([shared/schema.ts]) *)

Module Zod.
Section Zod.
Context `{Externals}.

(** The issues found, in the order zod reports them, and the parsed
    value unless parsing was aborted by an input of the wrong type. *)
Definition result (A : Type) : Type := list string * option A.

Record check : Type := {
  passes : string -> bool;
  message : string;
}.

(** [.min(n, msg)]: [input.data.length < n] is the issue. *)
Definition min (n : nat) (msg : string) : check :=
  {| passes := fun s => bool_decide (n ≤ js_length s); message := msg |}.

Definition email (msg : string) : check :=
  {| passes := zod_email; message := msg |}.

Definition refine (test : string -> bool) (msg : string) : check :=
  {| passes := test; message := msg |}.

(** [z.string()] followed by its checks, all of which run. *)
Definition string_ (checks : list check) (input : option value)
  : result string :=
  match input with
  | Some (VStr s) =>
      (message <$> filter (fun c => passes c s = false) checks, Some s)
  | _ => ([zod_invalid_type "string" input], None)
  end.

(** [z.string().nullable().optional()], the insert schema of a nullable
    text column: the outer option is [undefined], the inner one [null]. *)
Definition optional_nullable_string (input : option value)
  : result (option (option string)) :=
  match input with
  | None => ([], Some None)
  | Some VNull => ([], Some (Some None))
  | Some (VStr s) => ([], Some (Some (Some s)))
  | _ => ([zod_invalid_type "string" input], None)
  end.

Definition enum (options : list string) (input : option value)
  : result string :=
  match input with
  | Some (VStr s) =>
      if decide (s ∈ options) then ([], Some s)
      else ([zod_invalid_enum_value options s], None)
  | _ => ([zod_invalid_type "string" input], None)
  end.

(** [schema.parse(input)]: the value, or a [ZodError] with its issues. *)
Definition parse {A} (r : result A) : list string + A :=
  match r with
  | ([], Some a) => inr a
  | (issues, _) => inl issues
  end.

(** [error.errors[0].message]. *)
Definition errors0 (issues : list string) : string :=
  default ""%string (head issues).
End Zod.
End Zod.

Record LoginData : Type := {
  ld_email : string;
  ld_password : string;
}.

Record RegisterData : Type := {
  rd_name : string;
  rd_email : string;
  rd_password : string;
  rd_confirmPassword : string;
}.

Record ProjectData : Type := {
  pd_name : string;
  pd_description : option (option string);
  pd_status : string;
  pd_startDate : string;
}.

Section Schemas.
Context `{Externals}.
Local Open Scope string_scope.

Definition loginSchema (input : value) : Zod.result LoginData :=
  match input with
  | VObj fields =>
      let '(e1, email) :=
        Zod.string_ [Zod.min 1 "Email é obrigatório"; Zod.email "Email inválido"]
                    (assoc "email" fields) in
      let '(e2, password) :=
        Zod.string_ [Zod.min 1 "Senha é obrigatória";
                     Zod.min 6 "Senha deve ter pelo menos 6 caracteres"]
                    (assoc "password" fields) in
      ((e1 ++ e2)%list,
       email ≫= fun email => password ≫= fun password =>
       Some {| ld_email := email; ld_password := password |})
  | _ => ([zod_invalid_type "object" (Some input)], None)
  end.

Definition registerSchema (input : value) : Zod.result RegisterData :=
  match input with
  | VObj fields =>
      let '(e1, name) :=
        Zod.string_ [Zod.min 1 "Nome é obrigatório";
                     Zod.min 2 "Nome deve ter pelo menos 2 caracteres"]
                    (assoc "name" fields) in
      let '(e2, email) :=
        Zod.string_ [Zod.min 1 "Email é obrigatório"; Zod.email "Email inválido"]
                    (assoc "email" fields) in
      let '(e3, password) :=
        Zod.string_ [Zod.min 1 "Senha é obrigatória";
                     Zod.min 6 "Senha deve ter pelo menos 6 caracteres"]
                    (assoc "password" fields) in
      let '(e4, confirmPassword) :=
        Zod.string_ [Zod.min 1 "Confirmação de senha é obrigatória"]
                    (assoc "confirmPassword" fields) in
      let data :=
        name ≫= fun name => email ≫= fun email =>
        password ≫= fun password => confirmPassword ≫= fun confirmPassword =>
        Some {| rd_name := name; rd_email := email; rd_password := password;
                rd_confirmPassword := confirmPassword |} in
      (* .refine(...), which runs unless the object was aborted *)
      let e5 :=
        match data with
        | Some d =>
            if decide (rd_password d = rd_confirmPassword d) then []
            else ["Senhas não conferem"]
        | None => []
        end in
      ((e1 ++ e2 ++ e3 ++ e4 ++ e5)%list, data)
  | _ => ([zod_invalid_type "object" (Some input)], None)
  end.

Definition projectSchema (input : value) : Zod.result ProjectData :=
  match input with
  | VObj fields =>
      let '(e1, name) :=
        Zod.string_ [Zod.min 1 "Nome do projeto é obrigatório";
                     Zod.min 2 "Nome deve ter pelo menos 2 caracteres"]
                    (assoc "name" fields) in
      let '(e2, description) :=
        Zod.optional_nullable_string (assoc "description" fields) in
      let '(e3, status) :=
        Zod.enum ["pendente"; "andamento"; "concluido"] (assoc "status" fields) in
      let '(e4, startDate) :=
        Zod.string_ [Zod.min 1 "Data de início é obrigatória";
                     Zod.refine (fun date => bool_decide (is_Some (Date_parse date)))
                                "Data inválida"]
                    (assoc "startDate" fields) in
      ((e1 ++ e2 ++ e3 ++ e4)%list,
       name ≫= fun name => description ≫= fun description =>
       status ≫= fun status => startDate ≫= fun startDate =>
       Some {| pd_name := name; pd_description := description;
               pd_status := status; pd_startDate := startDate |})
  | _ => ([zod_invalid_type "object" (Some input)], None)
  end.
End Schemas.

(** ** Requests and responses *)

Record Request : Type := {
  headers_authorization : option string;
  params_id : string;
  body : value;
}.

(** [payload] is what [res.json] was given; [None] is the empty body of
    [res.send()]. *)
Record Response : Type := {
  statusCode : Z;
  payload : option value;
}.

Definition json (code : Z) (v : value) : Response :=
  {| statusCode := code; payload := Some v |}.

Definition message (text : string) : value := VObj [("message"%string, VStr text)].

Definition public_user `{Externals} (user : User.t) : value :=
  VObj [ ("id", VStr (uuid_out (User.id user)));
         ("name", VStr (User.name user));
         ("email", VStr (User.email user)) ]%string.

Definition stats_value (s : Stats) : value :=
  VObj [ ("total", VNum (Z.of_nat (total s)));
         ("pendente", VNum (Z.of_nat (pendente s)));
         ("andamento", VNum (Z.of_nat (andamento s)));
         ("concluido", VNum (Z.of_nat (concluido s))) ]%string.

(** [s.split(sep)] for a one-character separator. *)
Fixpoint split (sep : ascii) (s : string) : list string :=
  match s with
  | EmptyString => [EmptyString]
  | String c rest =>
      if decide (c = sep) then EmptyString :: split sep rest
      else match split sep rest with
           | cur :: more => String c cur :: more
           | [] => [String c EmptyString]
           end
  end.

(** Whether a character occurs in a string. *)
Fixpoint has_char (c : ascii) (s : string) : bool :=
  match s with
  | EmptyString => false
  | String c' rest => bool_decide (c' = c) || has_char c rest
  end.

(** [authHeader && authHeader.split(' ')[1]], with every falsy outcome
    ([undefined], the empty string) as [None]. *)
Definition bearer_token (authHeader : option string) : option string :=
  authHeader ≫= fun h =>
  split " "%char h !! 1%nat ≫= fun token =>
  if decide (token = ""%string) then None else Some token.

(** [process.env.JWT_SECRET || "your-secret-key"]. *)
Definition JWT_SECRET (env_JWT_SECRET : option string) : string :=
  match env_JWT_SECRET with
  | Some s => if decide (s = ""%string) then "your-secret-key"%string else s
  | None => "your-secret-key"%string
  end.

Inductive Route : Type :=
| POST_auth_register
| POST_auth_login
| GET_auth_user
| GET_projects
| GET_projects_stats
| POST_projects
| GET_projects_id
| PUT_projects_id
| DELETE_projects_id.

Section Routes.
Context `{Externals}.
(** The environment variable as the process found it at startup. *)
Variable env_JWT_SECRET : option string.
Local Open Scope string_scope.

Definition handler : Type := Request -> Env -> Db -> Response * Db.

(** The middleware: the response it sends itself, or the claims it puts
    in [req.user] before calling [next]. *)
Definition authenticateToken (req : Request) (env : Env) : Response + Claims.t :=
  match bearer_token (headers_authorization req) with
  | None => inl (json 401 (message "Token de acesso requerido"))
  | Some token =>
      match jwt_verify token (JWT_SECRET env_JWT_SECRET) (now env) with
      | None => inl (json 403 (message "Token inválido"))
      | Some user => inr user
      end
  end.

(** [app.METHOD(path, authenticateToken, h)]. *)
Definition protected (h : Claims.t -> handler) : handler :=
  fun req env db =>
    match authenticateToken req env with
    | inl res => (res, db)
    | inr user => h user req env db
    end.

(** [jwt.sign({ userId: user.id, email: user.email }, JWT_SECRET,
    { expiresIn: '7d' })]. *)
Definition issue_token (user : User.t) (env : Env) : string :=
  jwt_sign (Claims.mk (uuid_out (User.id user)) (User.email user))
           (JWT_SECRET env_JWT_SECRET) "7d" (now env).

Definition auth_register : handler :=
  fun req env db =>
    match Zod.parse (registerSchema (body req)) with
    | inl errors => (json 400 (message (Zod.errors0 errors)), db)
    | inr validatedData =>
        match getUserByEmail (rd_email validatedData) db with
        | Some _ => (json 400 (message "Email já está em uso"), db)
        | None =>
            let hashedPassword :=
              bcrypt_hash (rd_password validatedData) 10 (salt env) in
            match createUser {| iu_name := rd_name validatedData;
                                iu_email := rd_email validatedData;
                                iu_password := hashedPassword |} env db with
            | inl _ => (json 500 (message "Erro interno do servidor"), db)
            | inr (user, db') =>
                (json 201 (VObj [("token", VStr (issue_token user env));
                                 ("user", public_user user)]), db')
            end
        end
    end.

Definition auth_login : handler :=
  fun req env db =>
    match Zod.parse (loginSchema (body req)) with
    | inl errors => (json 400 (message (Zod.errors0 errors)), db)
    | inr validatedData =>
        match getUserByEmail (ld_email validatedData) db with
        | None => (json 401 (message "Email ou senha inválidos"), db)
        | Some user =>
            if bcrypt_compare (ld_password validatedData) (User.password user)
            then (json 200 (VObj [("token", VStr (issue_token user env));
                                  ("user", public_user user)]), db)
            else (json 401 (message "Email ou senha inválidos"), db)
        end
    end.

Definition auth_user (user : Claims.t) : handler :=
  fun req env db =>
    match getUser (Claims.userId user) db with
    | inl _ => (json 500 (message "Erro interno do servidor"), db)
    | inr None => (json 404 (message "Usuário não encontrado"), db)
    | inr (Some u) => (json 200 (public_user u), db)
    end.

Definition projects_list (user : Claims.t) : handler :=
  fun req env db =>
    match getProjects (Claims.userId user) db with
    | inl _ => (json 500 (message "Erro ao buscar projetos"), db)
    | inr projects => (json 200 (VArr (Project.to_value <$> projects)), db)
    end.

Definition projects_stats (user : Claims.t) : handler :=
  fun req env db =>
    match getProjectStats (Claims.userId user) db with
    | inl _ => (json 500 (message "Erro ao buscar estatísticas"), db)
    | inr stats => (json 200 (stats_value stats), db)
    end.

Definition projects_create (user : Claims.t) : handler :=
  fun req env db =>
    match Zod.parse (projectSchema (body req)) with
    | inl errors => (json 400 (message (Zod.errors0 errors)), db)
    | inr validatedData =>
        (* new Date(validatedData.startDate); the driver throws on an
           invalid date *)
        match Date_parse (pd_startDate validatedData) with
        | None => (json 500 (message "Erro ao criar projeto"), db)
        | Some startDate =>
            match createProject
                    {| np_name := pd_name validatedData;
                       np_description := mjoin (pd_description validatedData);
                       np_status := Some (pd_status validatedData);
                       np_startDate := startDate;
                       np_userId := Claims.userId user |} env db with
            | inl _ => (json 500 (message "Erro ao criar projeto"), db)
            | inr (project, db') => (json 201 (Project.to_value project), db')
            end
        end
    end.

Definition projects_get (user : Claims.t) : handler :=
  fun req env db =>
    match getProject (params_id req) (Claims.userId user) db with
    | inl _ => (json 500 (message "Erro ao buscar projeto"), db)
    | inr None => (json 404 (message "Projeto não encontrado"), db)
    | inr (Some project) => (json 200 (Project.to_value project), db)
    end.

Definition projects_update (user : Claims.t) : handler :=
  fun req env db =>
    match Zod.parse (projectSchema (body req)) with
    | inl errors => (json 400 (message (Zod.errors0 errors)), db)
    | inr validatedData =>
        match Date_parse (pd_startDate validatedData) with
        | None => (json 500 (message "Erro ao atualizar projeto"), db)
        | Some startDate =>
            match updateProject (params_id req) (Claims.userId user)
                    {| up_name := Some (pd_name validatedData);
                       up_description := pd_description validatedData;
                       up_status := Some (pd_status validatedData);
                       up_startDate := Some startDate |} env db with
            | inl _ => (json 500 (message "Erro ao atualizar projeto"), db)
            | inr (None, db') =>
                (json 404 (message "Projeto não encontrado"), db')
            | inr (Some project, db') =>
                (json 200 (Project.to_value project), db')
            end
        end
    end.

Definition projects_delete (user : Claims.t) : handler :=
  fun req env db =>
    match deleteProject (params_id req) (Claims.userId user) db with
    | inl _ => (json 500 (message "Erro ao deletar projeto"), db)
    | inr (false, db') => (json 404 (message "Projeto não encontrado"), db')
    | inr (true, db') => ({| statusCode := 204; payload := None |}, db')
    end.

(** [registerRoutes]: the route table. *)
Definition registerRoutes (route : Route) : handler :=
  match route with
  | POST_auth_register => auth_register
  | POST_auth_login => auth_login
  | GET_auth_user => protected auth_user
  | GET_projects => protected projects_list
  | GET_projects_stats => protected projects_stats
  | POST_projects => protected projects_create
  | GET_projects_id => protected projects_get
  | PUT_projects_id => protected projects_update
  | DELETE_projects_id => protected projects_delete
  end.

(** The store after a sequence of requests, served one after the other. *)
Definition run (trace : list (Route * Request * Env)) (db : Db) : Db :=
  foldl (fun db '(route, req, env) => (registerRoutes route req env db).2)
        db trace.

(** The states of the store the API can produce from an empty one. *)
Inductive reachable : Db -> Prop :=
| reachable_empty : reachable empty_db
| reachable_step route req env db :
    reachable db -> reachable (registerRoutes route req env db).2.
End Routes.

(** ** A small instance of the libraries and of the store's conversions

    Enough of each library to run the routes on concrete requests: a token
    is the secret and the claims joined by colons, a digest is the salt and
    the password joined by a dollar sign, an email is two non-empty parts
    around one at sign, and three dates are known.  The store reads a few
    short names as uuids (one of them in two spellings) and refuses every
    other text; it takes a text without a NUL character that has no more
    characters than the column is wide; it refuses a date before the year
    1, and reads the first instant of the year 1 back as that of the year
    2001. *)

Module Sample.
Local Open Scope string_scope.

Definition sign (payload : Claims.t) (secret expiresIn : string) (clock : Z)
  : string :=
  secret ++ ":" ++ Claims.userId payload ++ ":" ++ Claims.email payload.

Definition verify (token secret : string) (clock : Z) : option Claims.t :=
  match split ":" token with
  | [s; userId; email] =>
      if decide (s = secret) then Some (Claims.mk userId email) else None
  | _ => None
  end.

Definition hash (data : string) (rounds : Z) (salt : string) : string :=
  salt ++ "$" ++ data.

Definition compare (data digest : string) : bool :=
  bool_decide (split "$" digest !! 1%nat = Some data).

Definition is_email (s : string) : bool :=
  match split "@" s with
  | [a; b] => bool_decide (a ≠ "" ∧ b ≠ "")
  | _ => false
  end.

Definition invalid_type (expected : string) (input : option value) : string :=
  match input with
  | None => "Required"
  | Some _ => "Expected " ++ expected
  end.

Definition invalid_enum_value (options : list string) (s : string) : string :=
  "Invalid enum value".

Definition date_parse (s : string) : option Z :=
  if decide (s = "2025-01-01") then Some 1735689600000%Z
  else if decide (s = "0001-01-01") then Some (-62135596800000)%Z
  else if decide (s = "0000-01-01") then Some (-62167219200000)%Z
  else None.

Definition spellings : list (string * N) :=
  [("u-ana", 1); ("U-ANA", 1); ("u-bia", 2); ("u-caio", 3); ("u-dani", 4);
   ("u-edu", 5); ("u-zed", 26);
   ("p-1", 11); ("p-2", 12); ("p-3", 13); ("p-9", 19)]%N.

Definition read_uuid (s : string) : option uuid :=
  (fun kv => Uuid kv.2) <$> head (filter (fun kv => kv.1 = s) spellings).

Definition show_uuid (u : uuid) : string :=
  match u with
  | Uuid n => default "" (fst <$> head (filter (fun kv => kv.2 = n) spellings))
  end.

(** The characters of a text: the bytes that are not continuation bytes. *)
Fixpoint char_length (s : string) : nat :=
  match s with
  | EmptyString => 0
  | String c rest =>
      (if (N_of_ascii c <? 128)%N || (192 <=? N_of_ascii c)%N then 1 else 0)%nat
      + char_length rest
  end.

Definition takes_text (s : string) : bool := negb (has_char "000"%char s).

Definition takes_varchar (n : nat) (s : string) : bool :=
  takes_text s && bool_decide (char_length s ≤ n)%nat.

Definition read_back (t : Z) : option Z :=
  if decide (t = -62135596800000)%Z then Some 978307200000%Z
  else if decide (t < -62135596800000)%Z then None
  else Some t.

Definition externals : Externals :=
  {| jwt_sign := sign;
     jwt_verify := verify;
     bcrypt_hash := hash;
     bcrypt_compare := compare;
     zod_email := is_email;
     zod_invalid_type := invalid_type;
     zod_invalid_enum_value := invalid_enum_value;
     Date_parse := date_parse;
     uuid_in := read_uuid;
     uuid_out := show_uuid;
     pg_varchar := takes_varchar;
     pg_text := takes_text;
     pg_timestamp := read_back |}.

(** Two users, Ana with two projects and Bia with one. *)
Definition ana : User.t :=
  User.mk (Uuid 1) "Ana" "ana@x.com" "s$secret1" (Some 10%Z) (Some 10%Z).
Definition bia : User.t :=
  User.mk (Uuid 2) "Bia" "bia@x.com" "s$secret2" (Some 20%Z) (Some 20%Z).
Definition site : Project.t :=
  Project.mk (Uuid 11) "Site" None "pendente" 1735689600000%Z (Uuid 1)
             (Some 30%Z) (Some 30%Z).
Definition app : Project.t :=
  Project.mk (Uuid 12) "App" (Some "mobile") "andamento" 1735689600000%Z
             (Uuid 2) (Some 40%Z) (Some 40%Z).
Definition blog : Project.t :=
  Project.mk (Uuid 13) "Blog" None "concluido" 1735689600000%Z (Uuid 1)
             (Some 50%Z) (Some 60%Z).
Definition db : Db := {| users := [ana; bia]; projects := [site; app; blog] |}.

(** The clock, and the text that spells the id the store draws. *)
Definition env (t : Z) (id : string) : Env :=
  {| now := t; fresh_uuid := default (Uuid 0) (read_uuid id); salt := "s" |}.

(** A request carrying the token of the given user under the default
    secret. *)
Definition as_user (u : User.t) (id : string) (b : value) : Request :=
  {| headers_authorization :=
       Some ("Bearer your-secret-key:" ++ show_uuid (User.id u) ++ ":"
             ++ User.email u);
     params_id := id;
     body := b |}.

Definition anonymous (b : value) : Request :=
  {| headers_authorization := None; params_id := ""; body := b |}.

Definition register_body (name email password confirm : string) : value :=
  VObj [("name", VStr name); ("email", VStr email);
        ("password", VStr password); ("confirmPassword", VStr confirm)].

Definition login_body (email password : string) : value :=
  VObj [("email", VStr email); ("password", VStr password)].

Definition project_body (name status startDate : string) : value :=
  VObj [("name", VStr name); ("status", VStr status);
        ("startDate", VStr startDate)].

(** The scenario of the specification: Ana registers and creates the
    project "Site"; her statistics are then 1, 1, 0, 0. *)
Definition scenario : Db :=
  let register :=
    anonymous (register_body "Ana" "ana@x.com" "secret1" "secret1") in
  let create :=
    {| headers_authorization := Some "Bearer your-secret-key:u-ana:ana@x.com";
       params_id := "";
       body := project_body "Site" "pendente" "2025-01-01" |} in
  let db1 :=
    (@registerRoutes externals None POST_auth_register register
       (env 10 "u-ana") empty_db).2 in
  (@registerRoutes externals None POST_projects create
     (env 30 "p-1") db1).2.
End Sample.

(** ** The browser side ([client/src/lib/auth.ts], the [useAuth] hook) *)

(** [getAuthHeaders()]: the [Authorization] header it builds, if any, from
    what [localStorage.getItem('authToken')] returns ([None] is [null]). *)
Definition getAuthHeaders (authToken : option string) : option string :=
  match authToken with
  | Some token =>
      if decide (token = ""%string) then None else Some ("Bearer " +:+ token)%string
  | None => None
  end.

(** How a query function ends: with data, with a thrown [Error], or with
    the rejection of [response.json()] on a body that is no JSON. *)
Inductive QueryResult : Type :=
| Resolved (data : value)
| Thrown (text : string)
| NoJson.

(** The request the current-user query of [useAuth] sends; the query is
    enabled only with a token. *)
Definition user_query_request (token : string) : Request :=
  {| headers_authorization := Some ("Bearer " +:+ token)%string;
     params_id := ""%string;
     body := VNull |}.

(** [response.ok]. *)
Definition ok (response : Response) : bool :=
  bool_decide (200 ≤ statusCode response ≤ 299)%Z.

(** The query function of [useAuth] once the response is there: the token
    the hook holds afterwards ([setToken(null)] on 401 and 403) and how the
    query ends. *)
Definition user_queryFn (token : option string) (response : Response)
  : option string * QueryResult :=
  if ok response then
    (token, match payload response with
            | Some data => Resolved data
            | None => NoJson
            end)
  else if bool_decide (statusCode response = 401%Z ∨ statusCode response = 403%Z)
  then (None, Resolved VNull)
  else (token, Thrown "Failed to fetch user").

(** ** What the schema promises about a state of the store *)

Record schema_ok (db : Db) : Prop := {
  users_pkey : NoDup (User.id <$> users db);
  users_email_unique : NoDup (User.email <$> users db);
  projects_pkey : NoDup (Project.id <$> projects db);
  projects_user_id_fk :
    ∀ p, p ∈ projects db → Project.userId p ∈ User.id <$> users db;
}.

(** The statuses [projectSchema] lets through. *)
Definition status_enum : list string := ["pendente"; "andamento"; "concluido"]%string.

Definition statuses_ok (db : Db) : Prop :=
  Forall (fun p => Project.status p ∈ status_enum) (projects db).


(** The store with every stored digest replaced by another string. *)
Definition with_digest (f : User.t -> string) (u : User.t) : User.t :=
  User.mk (User.id u) (User.name u) (User.email u) (f u)
          (User.createdAt u) (User.updatedAt u).

Definition with_digests (f : User.t -> string) (db : Db) : Db :=
  {| users := with_digest f <$> users db; projects := projects db |}.

(** What every reachable state satisfies. *)
Definition store_ok (db : Db) : Prop := schema_ok db ∧ statuses_ok db.

(** ** Lists: selections that find nothing, or one row *)

Section selections.
Context {A : Type} (P : A -> Prop) `{!∀ x, Decision (P x)}.

Lemma filter_none (l : list A) :
  (∀ x, x ∈ l → ¬ P x) → filter P l = [].
Proof.
  induction l as [|x l IH]; intros Hl; [done|].
  rewrite filter_cons_False; [|apply Hl; left].
  apply IH. intros y Hy. apply Hl. by right.
Qed.

Lemma filter_none_inv (l : list A) x :
  filter P l = [] → x ∈ l → ¬ P x.
Proof.
  intros Hnil Hx HP.
  assert (x ∈ filter P l) as Hin by (by apply list_elem_of_filter).
  rewrite Hnil in Hin. by apply not_elem_of_nil in Hin.
Qed.

Lemma update_none (f : A -> A) (l : list A) :
  filter P l = [] → (fun x => if decide (P x) then f x else x) <$> l = l.
Proof.
  intros Hnil. induction l as [|x l IH]; [done|].
  assert (¬ P x) as Hx by (eapply filter_none_inv; [done|left]).
  rewrite filter_cons_False in Hnil by done.
  cbn. rewrite decide_False by done. f_equal. by apply IH.
Qed.

Lemma delete_none (l : list A) :
  filter P l = [] → filter (fun x => ¬ P x) l = l.
Proof.
  intros Hnil. induction l as [|x l IH]; [done|].
  assert (¬ P x) as Hx by (eapply filter_none_inv; [done|left]).
  rewrite filter_cons_False in Hnil by done.
  rewrite filter_cons_True by done. f_equal. by apply IH.
Qed.

Lemma delete_then_none (l : list A) :
  filter P (filter (fun x => ¬ P x) l) = [].
Proof.
  apply filter_none. intros x Hx. by apply list_elem_of_filter in Hx as [? _].
Qed.
End selections.

Lemma db_eta (db : Db) : {| users := users db; projects := projects db |} = db.
Proof. by destruct db. Qed.

(** Under the primary key, an id selects its row and nothing else. *)
Lemma select_by_id (l : list Project.t) (p : Project.t) (P : Project.t -> Prop)
    `{!∀ x, Decision (P x)} :
  NoDup (Project.id <$> l) → p ∈ l →
  (∀ q, P q → Project.id q = Project.id p) → P p →
  filter P l = [p].
Proof.
  intros Hnd Hp Hid HP.
  induction l as [|x l IH]; [by apply not_elem_of_nil in Hp|].
  rewrite fmap_cons in Hnd. apply NoDup_cons in Hnd as [Hx Hnd].
  apply elem_of_cons in Hp as [->|Hp].
  - rewrite filter_cons_True by done. f_equal.
    apply filter_none. intros q Hq HPq. apply Hx.
    rewrite <- (Hid q HPq). by apply list_elem_of_fmap_2.
  - rewrite filter_cons_False; [by apply IH|].
    intros HPx. apply Hx. rewrite (Hid x HPx). by apply list_elem_of_fmap_2.
Qed.

Lemma select_own (db : Db) (p : Project.t) :
  NoDup (Project.id <$> projects db) → p ∈ projects db →
  filter (id_and_owner (Project.id p) (Project.userId p)) (projects db) = [p].
Proof.
  intros Hnd Hp. apply select_by_id; [done|done| |done].
  by intros q [? _].
Qed.


(** ** The order of [ORDER BY created_at] *)

#[global] Instance created_le_total : Total created_le.
Proof.
  intros p q. unfold created_le.
  destruct (Project.createdAt p), (Project.createdAt q); auto; lia.
Qed.

#[global] Instance created_le_trans : Transitive created_le.
Proof.
  intros p q r. unfold created_le.
  destruct (Project.createdAt p), (Project.createdAt q), (Project.createdAt r);
    auto; try done; lia.
Qed.

(** ** The queries on texts that the store reads as ids *)

Section reading_ids.
Context `{Externals}.

Lemma getUser_read id i db :
  uuid_in id = Some i →
  getUser id db = inr (head (filter (fun u => User.id u = i) (users db))).
Proof. intros Hid. unfold getUser. by rewrite Hid. Qed.

Lemma getProjects_read userId u db :
  uuid_in userId = Some u →
  getProjects userId db
  = inr (merge_sort created_le (filter (owned_by u) (projects db))).
Proof. intros Hu. unfold getProjects. by rewrite Hu. Qed.

Lemma getProject_read id userId i u db :
  uuid_in id = Some i → uuid_in userId = Some u →
  getProject id userId db
  = inr (head (filter (id_and_owner i u) (projects db))).
Proof. intros Hid Hu. unfold getProject. by rewrite Hid, Hu. Qed.

Lemma deleteProject_read id userId i u db :
  uuid_in id = Some i → uuid_in userId = Some u →
  deleteProject id userId db
  = inr (bool_decide (0 < length (filter (id_and_owner i u) (projects db))),
         {| users := users db;
            projects := filter (fun p => ¬ id_and_owner i u p) (projects db) |}).
Proof. intros Hid Hu. unfold deleteProject. by rewrite Hid, Hu. Qed.

Lemma updateProject_read id userId i u updates values env updatedAt db :
  uuid_in id = Some i → uuid_in userId = Some u →
  stored updates = Some values → pg_timestamp (now env) = Some updatedAt →
  updateProject id userId updates env db
  = inr (head (set_fields values updatedAt
                 <$> filter (id_and_owner i u) (projects db)),
         {| users := users db;
            projects :=
              (fun p => if decide (id_and_owner i u p)
                        then set_fields values updatedAt p else p)
                <$> projects db |}).
Proof.
  intros Hid Hu Hv Ht. unfold updateProject. by rewrite Hid, Hu, Hv, Ht.
Qed.

Lemma getProjectStats_read userId u db :
  uuid_in userId = Some u →
  ∃ s, getProjectStats userId db = inr s
       ∧ total s = length (filter (owned_by u) (projects db))
       ∧ pendente s
         = length (filter (fun p => Project.status p = "pendente"%string)
                          (filter (owned_by u) (projects db)))
       ∧ andamento s
         = length (filter (fun p => Project.status p = "andamento"%string)
                          (filter (owned_by u) (projects db)))
       ∧ concluido s
         = length (filter (fun p => Project.status p = "concluido"%string)
                          (filter (owned_by u) (projects db))).
Proof. intros Hu. unfold getProjectStats. rewrite Hu. by eexists. Qed.

End reading_ids.

(** C8. For every owner, list-by-owner returns exactly the rows of the
    projects table whose owner id is that owner (each one once, as a
    permutation of the selection), in ascending order of the creation
    timestamp.  The owner is the uuid that the store reads the given text
    as; a text it does not read as a uuid makes the query throw. *)
Theorem getProjects_owner_sorted `{Externals} (userId : string) (db : Db) :
  (∀ owner,
     uuid_in userId = Some owner →
     ∃ rows,
       getProjects userId db = inr rows
       ∧ rows ≡ₚ filter (owned_by owner) (projects db)
       ∧ (∀ p, p ∈ rows ↔ p ∈ projects db ∧ Project.userId p = owner)
       ∧ StronglySorted created_le rows)
  ∧ (uuid_in userId = None → getProjects userId db = inl DataException).
Proof.
  split.
  - intros owner Howner. rewrite (getProjects_read _ _ _ Howner).
    eexists. split; [done|]. split_and!.
    + apply merge_sort_Permutation.
    + intros p. rewrite merge_sort_Permutation, list_elem_of_filter.
      unfold owned_by. tauto.
    + apply StronglySorted_merge_sort; apply _.
  - intros Hnone. unfold getProjects. by rewrite Hnone.
Qed.

(** ** What a successful parse tells *)

Section parsing.
Context `{Externals}.

Lemma string_inv checks input es s :
  Zod.string_ checks input = (es, Some s) →
  input = Some (VStr s)
  ∧ es = Zod.message <$> filter (fun c => Zod.passes c s = false) checks.
Proof.
  unfold Zod.string_. destruct input as [[]|]; intros [= <- <-]; done.
Qed.

Lemma enum_inv options input es s :
  Zod.enum options input = (es, Some s) →
  input = Some (VStr s) ∧ s ∈ options ∧ es = [].
Proof.
  unfold Zod.enum. destruct input as [[]|]; try by intros [= <- <-].
  case_decide; by intros [= <- <-].
Qed.

Lemma parse_inr {A} (r : Zod.result A) (a : A) :
  Zod.parse r = inr a → r = ([], Some a).
Proof. destruct r as [[|] []]; cbn; congruence. Qed.

Lemma parse_inl_nonempty {A} (es : list string) (v : option A) errors :
  (v = None → es ≠ []) → Zod.parse (es, v) = inl errors →
  errors = es ∧ es ≠ [].
Proof.
  destruct es, v; cbn; intros Hv; try (intros [= <-]; split; done).
  by destruct Hv.
Qed.

Lemma projectSchema_inv (input : value) (d : ProjectData) :
  Zod.parse (projectSchema input) = inr d →
  pd_status d ∈ status_enum ∧ is_Some (Date_parse (pd_startDate d)).
Proof.
  intros Hparse%parse_inr. destruct input; try done.
  cbn -[Zod.string_ Zod.enum] in Hparse.
  destruct (Zod.string_ _ (assoc "name" fields)) as [e1 [name|]] eqn:E1;
    destruct (Zod.optional_nullable_string _) as [e2 [description|]] eqn:E2;
    destruct (Zod.enum _ _) as [e3 [status|]] eqn:E3;
    destruct (Zod.string_ _ (assoc "startDate" fields)) as [e4 [startDate|]] eqn:E4;
    simplify_eq/=.
  apply enum_inv in E3 as (_ & Hin & ->).
  apply string_inv in E4 as (_ & ->).
  split; [done|].
  repeat match goal with
         | H : _ ++ _ = [] |- _ => apply app_eq_nil in H as [? H]
         end.
  cbn in *. repeat case_decide; simplify_eq/=.
  destruct (Date_parse startDate); [by eexists|].
  match goal with Hno : bool_decide _ ≠ false |- _ => by destruct Hno end.
Qed.
End parsing.

(** ** Ownership *)

Section ownership.
Context `{Externals}.
Local Open Scope string_scope.

Lemma miss_unchanged (i u : uuid) (f : Project.t -> Project.t) (db : Db) :
  filter (id_and_owner i u) (projects db) = [] →
  {| users := users db;
     projects := (fun p => if decide (id_and_owner i u p) then f p else p)
                   <$> projects db |} = db
  ∧ {| users := users db;
       projects := filter (fun p => ¬ id_and_owner i u p) (projects db) |} = db.
Proof.
  intros Hnil. by rewrite update_none, delete_none, db_eta.
Qed.


Lemma deleteProject_miss id userId i u db :
  uuid_in id = Some i → uuid_in userId = Some u →
  filter (id_and_owner i u) (projects db) = [] →
  deleteProject id userId db = inr (false, db).
Proof.
  intros Hid Hu Hnil.
  rewrite (deleteProject_read _ _ _ _ _ Hid Hu), Hnil. cbn.
  by rewrite (proj2 (miss_unchanged i u (fun p => p) db Hnil)).
Qed.

End ownership.


(** ** The schema's promises and the status enum are kept by every route *)

Lemma NoDup_fmap_filter {A B} (f : A -> B) (P : A -> Prop)
    `{!∀ x, Decision (P x)} (l : list A) :
  NoDup (f <$> l) → NoDup (f <$> filter P l).
Proof.
  induction l as [|x l IH]; [done|].
  rewrite fmap_cons, NoDup_cons. intros [Hx Hnd].
  rewrite filter_cons. case_decide; [|by apply IH].
  rewrite fmap_cons, NoDup_cons. split; [|by apply IH].
  intros (y & Hy & Hin%list_elem_of_filter)%list_elem_of_fmap.
  apply Hx. rewrite Hy. apply list_elem_of_fmap_2. tauto.
Qed.

Section storage_invariants.
Context `{Externals}.
Implicit Types (db : Db) (env : Env).

Lemma createUser_inv insertUser env db user db' :
  createUser insertUser env db = inr (user, db') →
  user = User.mk (fresh_uuid env) (iu_name insertUser) (iu_email insertUser)
                 (iu_password insertUser) (Some (now env)) (Some (now env))
  ∧ db' = {| users := users db ++ [user]; projects := projects db |}
  ∧ (fresh_uuid env ∉ User.id <$> users db)
  ∧ (iu_email insertUser ∉ User.email <$> users db)
  ∧ pg_varchar 255 (iu_name insertUser) = true
  ∧ pg_varchar 255 (iu_email insertUser) = true
  ∧ pg_text (iu_password insertUser) = true.
Proof.
  unfold createUser.
  destruct (pg_varchar 255 (iu_name insertUser)); [|done].
  destruct (pg_varchar 255 (iu_email insertUser)); [|done].
  destruct (pg_text (iu_password insertUser)); [|done].
  cbn. repeat case_decide; intros [= <- <-]; done.
Qed.

Lemma createUser_taken insertUser env db :
  pg_varchar 255 (iu_name insertUser) = true →
  pg_varchar 255 (iu_email insertUser) = true →
  pg_text (iu_password insertUser) = true →
  (fresh_uuid env ∉ User.id <$> users db) →
  (iu_email insertUser ∉ User.email <$> users db) →
  createUser insertUser env db
  = inr (User.mk (fresh_uuid env) (iu_name insertUser) (iu_email insertUser)
                 (iu_password insertUser) (Some (now env)) (Some (now env)),
         {| users :=
              users db
              ++ [User.mk (fresh_uuid env) (iu_name insertUser)
                          (iu_email insertUser) (iu_password insertUser)
                          (Some (now env)) (Some (now env))];
            projects := projects db |}).
Proof.
  intros Hn He Hp Hid Hfree. unfold createUser. rewrite Hn, He, Hp. cbn.
  by rewrite !decide_False.
Qed.

Lemma createProject_inv projectData env db project db' :
  createProject projectData env db = inr (project, db') →
  ∃ owner startDate,
    uuid_in (np_userId projectData) = Some owner
    ∧ pg_timestamp (np_startDate projectData) = Some startDate
    ∧ project = Project.mk (fresh_uuid env) (np_name projectData)
                  (np_description projectData)
                  (default "pendente"%string (np_status projectData))
                  startDate owner (Some (now env)) (Some (now env))
    ∧ db' = {| users := users db; projects := projects db ++ [project] |}
    ∧ (fresh_uuid env ∉ Project.id <$> projects db)
    ∧ owner ∈ User.id <$> users db
    ∧ pg_varchar 255 (np_name projectData) = true
    ∧ from_option pg_text true (np_description projectData) = true
    ∧ pg_varchar 50 (default "pendente"%string (np_status projectData)) = true.
Proof.
  unfold createProject.
  destruct (uuid_in _) as [owner|]; [|done].
  destruct (pg_timestamp _) as [startDate|]; [|done].
  destruct (pg_varchar 255 _); [|done].
  destruct (from_option pg_text true _); [|done].
  destruct (pg_varchar 50 _); [|done].
  cbn. repeat case_decide; intros [= <- <-]; try done.
  by eexists _, _.
Qed.

Lemma stored_inv (updates values : ProjectUpdates) :
  stored updates = Some values →
  up_name values = up_name updates
  ∧ up_description values = up_description updates
  ∧ up_status values = up_status updates
  ∧ up_startDate values = up_startDate updates ≫= pg_timestamp
  ∧ (is_Some (up_startDate updates) → is_Some (up_startDate values))
  ∧ from_option (pg_varchar 255) true (up_name updates) = true
  ∧ from_option (from_option pg_text true) true (up_description updates) = true
  ∧ from_option (pg_varchar 50) true (up_status updates) = true.
Proof.
  unfold stored.
  destruct (from_option (pg_varchar 255) _ _); [|done].
  destruct (from_option (from_option pg_text true) _ _); [|done].
  destruct (from_option (pg_varchar 50) _ _); [|done].
  cbn. destruct (up_startDate updates) as [t|] eqn:Hs; cbn.
  - destruct (pg_timestamp t) as [t'|]; [|done].
    intros [= <-]. cbn. split_and!; try done; by eexists.
  - intros [= <-]. rewrite Hs. split_and!; try done; by intros [? ?].
Qed.

Lemma updateProject_inv id userId updates env db r db' :
  updateProject id userId updates env db = inr (r, db') →
  ∃ i u values updatedAt,
    uuid_in id = Some i ∧ uuid_in userId = Some u
    ∧ stored updates = Some values
    ∧ pg_timestamp (now env) = Some updatedAt
    ∧ r = head (set_fields values updatedAt
                  <$> filter (id_and_owner i u) (projects db))
    ∧ db' = {| users := users db;
               projects :=
                 (fun p => if decide (id_and_owner i u p)
                           then set_fields values updatedAt p else p)
                   <$> projects db |}.
Proof.
  unfold updateProject.
  destruct (uuid_in id) as [i|]; [|done].
  destruct (uuid_in userId) as [u|]; [|done].
  destruct (stored updates) as [values|]; [|done].
  destruct (pg_timestamp (now env)) as [updatedAt|]; [|done].
  intros [= <- <-]. by eexists i, u, values, updatedAt.
Qed.

Lemma deleteProject_inv id userId db r db' :
  deleteProject id userId db = inr (r, db') →
  ∃ i u,
    uuid_in id = Some i ∧ uuid_in userId = Some u
    ∧ r = bool_decide (0 < length (filter (id_and_owner i u) (projects db)))
    ∧ db' = {| users := users db;
               projects := filter (fun p => ¬ id_and_owner i u p) (projects db) |}.
Proof.
  unfold deleteProject.
  destruct (uuid_in id) as [i|]; [|done].
  destruct (uuid_in userId) as [u|]; [|done].
  intros [= <- <-]. by eexists i, u.
Qed.

Lemma createUser_schema_ok insertUser env db user db' :
  schema_ok db → createUser insertUser env db = inr (user, db') →
  schema_ok db'.
Proof.
  intros [Hu He Hp Hfk] (-> & -> & Hid & Hemail & _)%createUser_inv.
  split; cbn.
  - rewrite fmap_app. apply NoDup_app. split_and!; [done| |apply NoDup_singleton].
    cbn. intros x Hx ->%list_elem_of_singleton. done.
  - rewrite fmap_app. apply NoDup_app. split_and!; [done| |apply NoDup_singleton].
    cbn. intros x Hx ->%list_elem_of_singleton. done.
  - done.
  - intros p Hin. rewrite fmap_app, elem_of_app. left. by apply Hfk.
Qed.

Lemma createProject_schema_ok projectData env db project db' :
  schema_ok db → createProject projectData env db = inr (project, db') →
  schema_ok db'.
Proof.
  intros [Hu He Hp Hfk]
         (owner & t & _ & _ & -> & -> & Hid & Howner & _)%createProject_inv.
  split; cbn; [done|done| |].
  - rewrite fmap_app. apply NoDup_app. split_and!; [done| |apply NoDup_singleton].
    cbn. intros x Hx ->%list_elem_of_singleton. done.
  - intros p [Hin| ->%list_elem_of_singleton]%elem_of_app; [by apply Hfk|done].
Qed.

Lemma update_keys (i u : uuid) (values : ProjectUpdates) (t : Z)
    (l : list Project.t) :
  Project.id
    <$> ((fun p => if decide (id_and_owner i u p) then set_fields values t p
                   else p) <$> l)
  = Project.id <$> l
  ∧ Project.userId
      <$> ((fun p => if decide (id_and_owner i u p) then set_fields values t p
                     else p) <$> l)
    = Project.userId <$> l.
Proof.
  split; rewrite <- list_fmap_compose; apply list_fmap_ext;
    intros k p _; cbn; by case_decide.
Qed.

Lemma updateProject_schema_ok id userId updates env db r db' :
  schema_ok db → updateProject id userId updates env db = inr (r, db') →
  schema_ok db'.
Proof.
  intros [Hu He Hp Hfk]
         (i & u & values & t & _ & _ & _ & _ & _ & ->)%updateProject_inv.
  destruct (update_keys i u values t (projects db)) as [Hids Howners].
  split; cbn; rewrite ?Hids; try done.
  intros p Hin. apply (list_elem_of_fmap_2 Project.userId) in Hin.
  rewrite Howners in Hin.
  apply list_elem_of_fmap in Hin as (q & -> & Hq). by apply Hfk.
Qed.

Lemma deleteProject_schema_ok id userId db r db' :
  schema_ok db → deleteProject id userId db = inr (r, db') → schema_ok db'.
Proof.
  intros [Hu He Hp Hfk] (i & u & _ & _ & _ & ->)%deleteProject_inv.
  split; cbn; [done|done| |].
  - by apply NoDup_fmap_filter.
  - intros p [_ Hin]%list_elem_of_filter. by apply Hfk.
Qed.

Lemma updateProject_statuses id userId updates env db r db' :
  statuses_ok db →
  (∀ s, up_status updates = Some s → s ∈ status_enum) →
  updateProject id userId updates env db = inr (r, db') →
  statuses_ok db'.
Proof.
  unfold statuses_ok.
  intros Hok Hs (i & u & values & t & _ & _ & Hv & _ & _ & ->)%updateProject_inv.
  apply stored_inv in Hv as (_ & _ & Hst & _).
  cbn. apply Forall_fmap. eapply Forall_impl; [done|].
  intros p Hp. cbn. case_decide; [|done].
  cbn. rewrite Hst. destruct (up_status updates) as [s|]; [by apply Hs|done].
Qed.

Lemma deleteProject_statuses id userId db r db' :
  statuses_ok db → deleteProject id userId db = inr (r, db') →
  statuses_ok db'.
Proof.
  unfold statuses_ok.
  intros Hok (i & u & _ & _ & _ & ->)%deleteProject_inv.
  cbn. rewrite !Forall_forall in *.
  intros p [_ Hin]%list_elem_of_filter. by apply Hok.
Qed.
End storage_invariants.

Section route_invariants.
Context `{Externals}.
Variable env_JWT_SECRET : option string.

Lemma empty_db_ok : store_ok empty_db.
Proof.
  split; [split; cbn; try apply NoDup_nil_2|by constructor].
  intros p Hp. by apply not_elem_of_nil in Hp.
Qed.

Lemma auth_register_ok req env db :
  store_ok db → store_ok (auth_register env_JWT_SECRET req env db).2.
Proof.
  intros [Hschema Hstatus]. unfold auth_register.
  repeat case_match; cbn; try done.
  match goal with
  | Hc : createUser _ _ _ = inr _ |- _ =>
      split; [by eapply createUser_schema_ok|];
      apply createUser_inv in Hc as (_ & -> & _)
  end.
  done.
Qed.

Lemma auth_login_ok req env db :
  (auth_login env_JWT_SECRET req env db).2 = db.
Proof. unfold auth_login. by repeat case_match. Qed.

Lemma projects_create_ok user req env db :
  store_ok db → store_ok (projects_create user req env db).2.
Proof.
  intros [Hschema Hstatus]. unfold projects_create.
  destruct (Zod.parse _) as [|d] eqn:Hparse; [done|].
  apply projectSchema_inv in Hparse as [Hs _].
  repeat case_match; cbn; try done.
  match goal with
  | Hc : createProject _ _ _ = inr _ |- _ =>
      split; [by eapply createProject_schema_ok|];
      apply createProject_inv in Hc as (? & ? & _ & _ & -> & -> & _)
  end.
  unfold statuses_ok. cbn. apply Forall_app. split; [done|].
  by apply Forall_singleton.
Qed.

Lemma projects_update_ok user req env db :
  store_ok db → store_ok (projects_update user req env db).2.
Proof.
  intros [Hschema Hstatus]. unfold projects_update.
  destruct (Zod.parse _) as [|d] eqn:Hparse; [done|].
  apply projectSchema_inv in Hparse as [Hs _].
  destruct (Date_parse _) as [t|]; [|done].
  destruct (updateProject _ _ _ _ _) as [e|[r db']] eqn:Hup; [done|].
  assert (store_ok db') as Hok.
  { split; [by eapply updateProject_schema_ok|].
    eapply updateProject_statuses; [done| |done]. by intros s [= <-]. }
  by destruct r.
Qed.

Lemma projects_delete_ok user req env db :
  store_ok db → store_ok (projects_delete user req env db).2.
Proof.
  intros [Hschema Hstatus]. unfold projects_delete.
  destruct (deleteProject _ _ _) as [e|[r db']] eqn:Hdel; [done|].
  assert (store_ok db') as Hok.
  { split; [by eapply deleteProject_schema_ok|by eapply deleteProject_statuses]. }
  by destruct r.
Qed.

Lemma protected_ok (h : Claims.t -> handler) req env db :
  (∀ user, store_ok db → store_ok (h user req env db).2) →
  store_ok db → store_ok (protected env_JWT_SECRET h req env db).2.
Proof.
  intros Hh Hdb. unfold protected. destruct (authenticateToken _ _ _); auto.
Qed.

Lemma registerRoutes_ok route req env db :
  store_ok db → store_ok (registerRoutes env_JWT_SECRET route req env db).2.
Proof.
  destruct route; cbn [registerRoutes].
  - apply auth_register_ok.
  - by rewrite auth_login_ok.
  - apply protected_ok. intros user. unfold auth_user. by repeat case_match.
  - apply protected_ok. intros user. unfold projects_list. by case_match.
  - apply protected_ok. intros user. unfold projects_stats. by case_match.
  - apply protected_ok. intros user. apply projects_create_ok.
  - apply protected_ok. intros user. unfold projects_get. by repeat case_match.
  - apply protected_ok. intros user. apply projects_update_ok.
  - apply protected_ok. intros user. apply projects_delete_ok.
Qed.

Lemma reachable_ok db : reachable env_JWT_SECRET db → store_ok db.
Proof.
  induction 1 as [|route req env db _ IH]; [apply empty_db_ok|].
  by apply registerRoutes_ok.
Qed.
End route_invariants.

(** ** Statistics *)

Lemma count_by_status (l : list Project.t) :
  Forall (fun p => Project.status p ∈ status_enum) l →
  length l
  = length (filter (fun p => Project.status p = "pendente"%string) l)
    + length (filter (fun p => Project.status p = "andamento"%string) l)
    + length (filter (fun p => Project.status p = "concluido"%string) l).
Proof.
  induction 1 as [|p l Hp _ IH]; [done|].
  rewrite !filter_cons. unfold status_enum in Hp.
  repeat apply elem_of_cons in Hp as [Hp|Hp];
    [| | |by apply not_elem_of_nil in Hp];
    rewrite Hp; repeat case_decide; try done; cbn; lia.
Qed.

Section statistics.
Context `{Externals}.
Variable env_JWT_SECRET : option string.
Local Open Scope string_scope.

(** C2. In every state the API can reach by any sequence of requests,
    and for every owner, the total reported by [getProjectStats] is the
    sum of its three per-status counts; the total is the number of the
    owner's projects and each count the number of the owner's projects
    with that status, and the stats route answers with these numbers.  The
    owner is the uuid that the store reads the given text as. *)
Theorem stats_total_is_sum (db : Db) (userId : string) (owner : uuid) :
  reachable env_JWT_SECRET db →
  uuid_in userId = Some owner →
  ∃ stats,
    getProjectStats userId db = inr stats
    ∧ total stats = pendente stats + andamento stats + concluido stats
    ∧ total stats
      = length (filter (fun p => Project.userId p = owner) (projects db))
    ∧ pendente stats
      = length (filter (fun p => Project.status p = "pendente"
                                 ∧ Project.userId p = owner) (projects db))
    ∧ andamento stats
      = length (filter (fun p => Project.status p = "andamento"
                                 ∧ Project.userId p = owner) (projects db))
    ∧ concluido stats
      = length (filter (fun p => Project.status p = "concluido"
                                 ∧ Project.userId p = owner) (projects db))
    ∧ ∀ user req env,
        Claims.userId user = userId →
        projects_stats user req env db
        = (json 200
             (VObj [("total", VNum (Z.of_nat (total stats)));
                    ("pendente", VNum (Z.of_nat (pendente stats)));
                    ("andamento", VNum (Z.of_nat (andamento stats)));
                    ("concluido", VNum (Z.of_nat (concluido stats)))]),
           db).
Proof.
  intros [_ Hstatus]%reachable_ok Howner.
  destruct (getProjectStats_read userId owner db Howner)
    as (stats & Hstats & Ht & Hp & Ha & Hc).
  exists stats. rewrite Ht, Hp, Ha, Hc. split_and!.
  - done.
  - apply count_by_status. unfold statuses_ok in Hstatus.
    rewrite Forall_forall in *.
    intros p [_ Hin]%list_elem_of_filter. by apply Hstatus.
  - done.
  - by rewrite list_filter_filter.
  - by rewrite list_filter_filter.
  - by rewrite list_filter_filter.
  - intros user req env <-. unfold projects_stats. rewrite Hstats.
    unfold stats_value. by rewrite Ht, Hp, Ha, Hc.
Qed.
End statistics.

Lemma stats_total_is_sum_witness :
  projects Sample.scenario = [Sample.site]
  ∧ ∃ stats,
      @getProjectStats Sample.externals "u-ana" Sample.scenario = inr stats
      ∧ stats = {| total := 1; pendente := 1; andamento := 0; concluido := 0 |}
      ∧ total stats = pendente stats + andamento stats + concluido stats.
Proof.
  split; [vm_compute; reflexivity|].
  destruct (@stats_total_is_sum Sample.externals None Sample.scenario "u-ana"
              (Uuid 1)) as (stats & Hstats & Hsum & _).
  - unfold Sample.scenario. apply reachable_step, reachable_step, reachable_empty.
  - reflexivity.
  - exists stats. split_and!; [done| |done].
    vm_compute in Hstats. by injection Hstats as <-.
Defined.

(** ** Updates *)

Section updates.
Context `{Externals}.

(** The store takes the values of a [set] exactly when it takes each
    supplied one: the name and the status into their [varchar] columns, a
    description that is not [null] into its [text] column, and the start
    date into its [timestamp] column. *)
Lemma stored_is_Some (updates : ProjectUpdates) :
  is_Some (stored updates)
  ↔ (∀ n, up_name updates = Some n → pg_varchar 255 n = true)
    ∧ (∀ d, up_description updates = Some (Some d) → pg_text d = true)
    ∧ (∀ s, up_status updates = Some s → pg_varchar 50 s = true)
    ∧ (∀ t, up_startDate updates = Some t → is_Some (pg_timestamp t)).
Proof.
  unfold stored. destruct updates as [n d s t]. cbn. split.
  - intros [values Hv].
    destruct (from_option (pg_varchar 255) true n) eqn:Hn; [|by cbn in Hv].
    destruct (from_option (from_option pg_text true) true d) eqn:Hd;
      [|by cbn in Hv].
    destruct (from_option (pg_varchar 50) true s) eqn:Hs; [|by cbn in Hv].
    cbn in Hv. split_and!.
    + by intros n' ->.
    + by intros d' ->.
    + by intros s' ->.
    + intros t' ->. destruct (pg_timestamp t'); [by eexists|done].
  - intros (Hn & Hd & Hs & Ht).
    assert (from_option (pg_varchar 255) true n = true) as ->.
    { destruct n as [n'|]; [by apply Hn|done]. }
    assert (from_option (from_option pg_text true) true d = true) as ->.
    { destruct d as [[d'|]|]; [by apply Hd|done|done]. }
    assert (from_option (pg_varchar 50) true s = true) as ->.
    { destruct s as [s'|]; [by apply Hs|done]. }
    cbn. destruct t as [t'|]; [|by eexists].
    destruct (Ht t' eq_refl) as [t'' ->]. by eexists.
Qed.

(** C5, as the code has it.  In a store whose projects have distinct ids
    (the table's primary key), when the store reads the two texts as the id
    and the owner of a project of the requester and takes the supplied
    values and the clock, the update returns the row with exactly the
    supplied fields replaced (the start date as the store reads it back)
    and the update timestamp set to the current time; the id, the owner id,
    the creation timestamp and every field left out are as before, and
    every other row and the users table are untouched.  When no row has the
    id and the owner that the texts are read as, nothing is returned and
    the store is unchanged.  Where the store does not read a text as a
    uuid, or refuses the start date or the clock, the update throws and
    nothing is changed. *)
Theorem updateProject_frame (db : Db) (id userId : string)
    (updates : ProjectUpdates) (env : Env) :
  (∀ i u values updatedAt,
     uuid_in id = Some i → uuid_in userId = Some u →
     stored updates = Some values →
     pg_timestamp (now env) = Some updatedAt →
     (∀ p, NoDup (Project.id <$> projects db) →
        p ∈ projects db → Project.id p = i → Project.userId p = u →
        ∃ p',
          updateProject id userId updates env db
          = inr (Some p',
                 {| users := users db;
                    projects :=
                      (fun q => if decide (q = p) then p' else q)
                        <$> projects db |})
          ∧ Project.name p'
            = match up_name updates with Some n => n | None => Project.name p end
          ∧ Project.description p'
            = match up_description updates with
              | Some d => d
              | None => Project.description p
              end
          ∧ Project.status p'
            = match up_status updates with
              | Some s => s
              | None => Project.status p
              end
          ∧ Some (Project.startDate p')
            = match up_startDate updates with
              | Some t => pg_timestamp t
              | None => Some (Project.startDate p)
              end
          ∧ Project.updatedAt p' = Some updatedAt
          ∧ Project.id p' = Project.id p
          ∧ Project.userId p' = Project.userId p
          ∧ Project.createdAt p' = Project.createdAt p)
     ∧ ((∀ q, q ∈ projects db → ¬ (Project.id q = i ∧ Project.userId q = u)) →
        updateProject id userId updates env db = inr (None, db)))
  ∧ (is_Some (stored updates)
     ↔ (∀ n, up_name updates = Some n → pg_varchar 255 n = true)
       ∧ (∀ d, up_description updates = Some (Some d) → pg_text d = true)
       ∧ (∀ s, up_status updates = Some s → pg_varchar 50 s = true)
       ∧ (∀ t, up_startDate updates = Some t → is_Some (pg_timestamp t)))
  ∧ (uuid_in id = None ∨ uuid_in userId = None
     ∨ (∃ t, up_startDate updates = Some t ∧ pg_timestamp t = None)
     ∨ pg_timestamp (now env) = None →
     updateProject id userId updates env db = inl DataException).
Proof.
  split_and!.
  - intros i u values updatedAt Hid Hu Hv Ht.
    rewrite (updateProject_read _ _ _ _ _ _ _ _ db Hid Hu Hv Ht).
    apply stored_inv in Hv as (Hn & Hd & Hs & Hsd & Hsome & _).
    split.
    + intros p Hpk Hp <- <-. exists (set_fields values updatedAt p).
      pose proof (select_own db p Hpk Hp) as Hsel.
      split.
      * rewrite Hsel. cbn. do 3 f_equal.
        apply list_fmap_ext. intros k q Hq%list_elem_of_lookup_2.
        assert (id_and_owner (Project.id p) (Project.userId p) q ↔ q = p)
          as Hiff.
        { split; [|by intros ->].
          intros Hhit. apply list_elem_of_singleton. rewrite <- Hsel.
          by apply list_elem_of_filter. }
        destruct (decide (q = p)) as [->|Hne].
        -- by rewrite decide_True.
        -- rewrite decide_False; [done|]. by rewrite Hiff.
      * cbn. rewrite Hn, Hd, Hs. split_and!; try done.
        destruct (up_startDate updates) as [t|]; [|by rewrite Hsd].
        destruct Hsome as [t' Ht']; [by eexists|].
        rewrite Ht' in Hsd |- *. exact Hsd.
    + intros Hmiss. rewrite (filter_none _ _ Hmiss). cbn.
      by rewrite update_none, db_eta by (by apply filter_none).
  - apply stored_is_Some.
  - unfold updateProject, stored.
    intros [-> | [-> | [(t & -> & ->) | ->]]]; repeat case_match; done.
Qed.
End updates.

(** Ana renames "Site" and nothing else of it changes. *)
Lemma updateProject_frame_witness :
  ∃ p',
    @updateProject Sample.externals "p-1" "u-ana"
      {| up_name := Some "Portal"%string; up_description := None;
         up_status := None; up_startDate := None |}
      (Sample.env 70 "") Sample.db
    = inr (Some p',
           {| users := users Sample.db;
              projects := [p'; Sample.app; Sample.blog] |})
    ∧ Project.name p' = "Portal"%string
    ∧ Project.status p' = Project.status Sample.site
    ∧ Project.startDate p' = Project.startDate Sample.site
    ∧ Project.updatedAt p' = Some 70%Z
    ∧ Project.createdAt p' = Project.createdAt Sample.site.
Proof.
  destruct (@updateProject_frame Sample.externals Sample.db "p-1" "u-ana"
              {| up_name := Some "Portal"%string; up_description := None;
                 up_status := None; up_startDate := None |}
              (Sample.env 70 "")) as [Hhit _].
  destruct (Hhit (Uuid 11) (Uuid 1)
              {| up_name := Some "Portal"%string; up_description := None;
                 up_status := None; up_startDate := None |} 70%Z)
    as [Hrow _]; [reflexivity..|].
  destruct (Hrow Sample.site)
    as (p' & Hup & Hname & _ & Hstatus & Hdate & Htime & _ & _ & Hcreated);
    [compute_done|compute_done|reflexivity|reflexivity|].
  exists p'. split_and!; try done. by injection Hdate.
Defined.

(** Against C5 as stated.  "Site" is a project of Ana's, and an update of
    it by Ana that supplies the start date 0000-01-01 returns no project:
    the store refuses the date and the update throws, so the route answers
    500.  And no row has the id "zzz" with Ana as owner, yet the update of
    that pair does not return not-found: the store does not read "zzz" as a
    uuid, the update throws and the route answers 500, not 404. *)
Lemma updateProject_refused :
  Sample.site ∈ projects Sample.db
  ∧ @uuid_in Sample.externals "p-1" = Some (Project.id Sample.site)
  ∧ @uuid_in Sample.externals "u-ana" = Some (Project.userId Sample.site)
  ∧ @Date_parse Sample.externals "0000-01-01" = Some (-62167219200000)%Z
  ∧ @updateProject Sample.externals "p-1" "u-ana"
      {| up_name := None; up_description := None; up_status := None;
         up_startDate := Some (-62167219200000)%Z |}
      (Sample.env 70 "") Sample.db
    = inl DataException
  ∧ @registerRoutes Sample.externals None PUT_projects_id
      (Sample.as_user Sample.ana "p-1"
         (Sample.project_body "Site" "pendente" "0000-01-01"))
      (Sample.env 70 "") Sample.db
    = (json 500 (message "Erro ao atualizar projeto"), Sample.db)
  ∧ @uuid_in Sample.externals "zzz" = None
  ∧ @updateProject Sample.externals "zzz" "u-ana"
      {| up_name := Some "Portal"%string; up_description := None;
         up_status := None; up_startDate := None |}
      (Sample.env 70 "") Sample.db
    = inl DataException
  ∧ @registerRoutes Sample.externals None PUT_projects_id
      (Sample.as_user Sample.ana "zzz"
         (Sample.project_body "Site" "pendente" "2025-01-01"))
      (Sample.env 70 "") Sample.db
    = (json 500 (message "Erro ao atualizar projeto"), Sample.db).
Proof. split_and!; try compute_done; vm_compute; reflexivity. Qed.

(** ** Deleting *)

Lemma filter_hit_length {A} (P : A -> Prop) `{!∀ x, Decision (P x)} (l : list A) x :
  x ∈ l → P x → 0 < length (filter P l).
Proof.
  intros Hx HP.
  assert (x ∈ filter P l) as Hin by (by apply list_elem_of_filter).
  destruct (filter P l); [by apply not_elem_of_nil in Hin|cbn; lia].
Qed.

Section deleting.
Context `{Externals}.
Variable env_JWT_SECRET : option string.
Local Open Scope string_scope.

(** C6. Two consecutive deletes of a project of the requester (the id in
    the path and the identity in the token are texts that the store reads
    as the project's id and its owner's): the first answers 204 with an
    empty body and removes the project (and nothing else), the second
    answers 404 and changes nothing. *)
Theorem delete_twice (db : Db) (p : Project.t) (req : Request)
    (env1 env2 : Env) (user : Claims.t) :
  authenticateToken env_JWT_SECRET req env1 = inr user →
  authenticateToken env_JWT_SECRET req env2 = inr user →
  p ∈ projects db →
  uuid_in (params_id req) = Some (Project.id p) →
  uuid_in (Claims.userId user) = Some (Project.userId p) →
  ∃ db1,
    registerRoutes env_JWT_SECRET DELETE_projects_id req env1 db
    = ({| statusCode := 204; payload := None |}, db1)
    ∧ deleteProject (params_id req) (Claims.userId user) db = inr (true, db1)
    ∧ (p ∉ projects db1)
    ∧ getProject (params_id req) (Claims.userId user) db1 = inr None
    ∧ (∀ q, q ∈ projects db1 ↔
            q ∈ projects db
            ∧ ¬ (Project.id q = Project.id p ∧ Project.userId q = Project.userId p))
    ∧ users db1 = users db
    ∧ deleteProject (params_id req) (Claims.userId user) db1 = inr (false, db1)
    ∧ registerRoutes env_JWT_SECRET DELETE_projects_id req env2 db1
      = (json 404 (message "Projeto não encontrado"), db1).
Proof.
  intros Hauth1 Hauth2 Hp Hid Howner.
  set (db1 := {| users := users db;
                 projects :=
                   filter (fun q => ¬ id_and_owner (Project.id p)
                                        (Project.userId p) q) (projects db) |}).
  assert (deleteProject (params_id req) (Claims.userId user) db
          = inr (true, db1)) as Hfirst.
  { rewrite (deleteProject_read _ _ _ _ _ Hid Howner). do 2 f_equal.
    apply bool_decide_eq_true. by apply (filter_hit_length _ _ p). }
  assert (deleteProject (params_id req) (Claims.userId user) db1
          = inr (false, db1)) as Hsecond.
  { eapply deleteProject_miss; [done|done|]. apply delete_then_none. }
  exists db1. split_and!; try done.
  - unfold registerRoutes, protected, projects_delete.
    by rewrite Hauth1, Hfirst.
  - intros [Hno _]%list_elem_of_filter. by apply Hno.
  - rewrite (getProject_read _ _ _ _ _ Hid Howner). cbn.
    by rewrite delete_then_none.
  - intros q. cbn. rewrite list_elem_of_filter. unfold id_and_owner. tauto.
  - unfold registerRoutes, protected, projects_delete.
    by rewrite Hauth2, Hsecond.
Qed.
End deleting.

(** Ana deletes "Site" twice. *)
Lemma delete_twice_witness :
  ∃ db1,
    @registerRoutes Sample.externals None DELETE_projects_id
      (Sample.as_user Sample.ana "p-1" VNull) (Sample.env 80 "") Sample.db
    = ({| statusCode := 204; payload := None |}, db1)
    ∧ projects db1 = [Sample.app; Sample.blog]
    ∧ @registerRoutes Sample.externals None DELETE_projects_id
        (Sample.as_user Sample.ana "p-1" VNull) (Sample.env 90 "") db1
      = (json 404 (message "Projeto não encontrado"), db1).
Proof.
  destruct (@delete_twice Sample.externals None Sample.db Sample.site
              (Sample.as_user Sample.ana "p-1" VNull)
              (Sample.env 80 "") (Sample.env 90 "")
              (Claims.mk "u-ana" "ana@x.com"))
    as (db1 & H1 & Hdel & _ & _ & _ & _ & _ & H2);
    [reflexivity|reflexivity|compute_done|reflexivity|reflexivity|].
  exists db1. split_and!; [done| |done].
  vm_compute in Hdel. by injection Hdel as <-.
Defined.

(** A path id that the store does not read as a uuid: the query throws and
    the route answers 500, for a fetch and for a delete alike. *)
Example project_id_not_a_uuid :
  @registerRoutes Sample.externals None GET_projects_id
    (Sample.as_user Sample.ana "zzz" VNull) (Sample.env 80 "") Sample.db
  = (json 500 (message "Erro ao buscar projeto"), Sample.db)
  ∧ @registerRoutes Sample.externals None DELETE_projects_id
      (Sample.as_user Sample.ana "zzz" VNull) (Sample.env 80 "") Sample.db
    = (json 500 (message "Erro ao deletar projeto"), Sample.db).
Proof. split; vm_compute; reflexivity. Qed.

(** ** The request authenticator *)

Lemma split_no_sep (sep : ascii) (s : string) :
  has_char sep s = false → split sep s = [s].
Proof.
  induction s as [|c s IH]; [done|]. cbn.
  intros [Hc Hs]%orb_false_elim. apply bool_decide_eq_false in Hc.
  rewrite decide_False by done. by rewrite IH.
Qed.

Lemma split_app_sep (sep : ascii) (pre s : string) :
  has_char sep pre = false →
  split sep (pre +:+ String sep s) = pre :: split sep s.
Proof.
  induction pre as [|c pre IH].
  - intros _. change ("" +:+ String sep s)%string with (String sep s).
    cbn. by rewrite decide_True.
  - cbn. intros [Hc Hs]%orb_false_elim. apply bool_decide_eq_false in Hc.
    change (String c pre +:+ String sep s)%string
      with (String c (pre +:+ String sep s)).
    cbn. rewrite decide_False by done. by rewrite IH.
Qed.

Lemma bearer_token_Bearer (token : string) :
  token ≠ ""%string → has_char " " token = false →
  bearer_token (Some ("Bearer " +:+ token)%string) = Some token.
Proof.
  intros Hne Hsp. unfold bearer_token.
  change ("Bearer " +:+ token)%string with ("Bearer" +:+ String " " token)%string.
  cbn. rewrite split_app_sep, split_no_sep by done.
  cbn. by rewrite decide_False.
Qed.

Section authenticator.
Context `{Externals}.
Variable env_JWT_SECRET : option string.
Local Open Scope string_scope.

(** C7. A request to a protected route without a bearer token in its
    authorization header is answered 401 and the handler does not run;
    with a token that fails verification it is answered 403 and the
    handler does not run; otherwise the handler runs with the verified
    claims as the identity.  Every route except register and login is
    behind this gate. *)
Theorem authenticateToken_gate (h : Claims.t -> handler) (req : Request)
    (env : Env) (db : Db) :
  (bearer_token (headers_authorization req) = None →
     protected env_JWT_SECRET h req env db
     = (json 401 (message "Token de acesso requerido"), db))
  ∧ (∀ token,
       bearer_token (headers_authorization req) = Some token →
       jwt_verify token (JWT_SECRET env_JWT_SECRET) (now env) = None →
       protected env_JWT_SECRET h req env db
       = (json 403 (message "Token inválido"), db))
  ∧ (∀ token user,
       bearer_token (headers_authorization req) = Some token →
       jwt_verify token (JWT_SECRET env_JWT_SECRET) (now env) = Some user →
       protected env_JWT_SECRET h req env db = h user req env db)
  ∧ bearer_token None = None
  ∧ (∀ token, token ≠ "" → has_char " " token = false →
              bearer_token (Some ("Bearer " ++ token)) = Some token)
  ∧ registerRoutes env_JWT_SECRET GET_auth_user
    = protected env_JWT_SECRET auth_user
  ∧ registerRoutes env_JWT_SECRET GET_projects
    = protected env_JWT_SECRET projects_list
  ∧ registerRoutes env_JWT_SECRET GET_projects_stats
    = protected env_JWT_SECRET projects_stats
  ∧ registerRoutes env_JWT_SECRET POST_projects
    = protected env_JWT_SECRET projects_create
  ∧ registerRoutes env_JWT_SECRET GET_projects_id
    = protected env_JWT_SECRET projects_get
  ∧ registerRoutes env_JWT_SECRET PUT_projects_id
    = protected env_JWT_SECRET projects_update
  ∧ registerRoutes env_JWT_SECRET DELETE_projects_id
    = protected env_JWT_SECRET projects_delete.
Proof.
  unfold protected, authenticateToken. split_and!; try done.
  - by intros ->.
  - by intros token -> ->.
  - by intros token user -> ->.
  - apply bearer_token_Bearer.
Qed.
End authenticator.

(** The three outcomes on concrete requests: no header, a header with a
    scheme and no token, a token signed with another secret, and Ana's
    token. *)
Example gate_no_header :
  @registerRoutes Sample.externals None GET_projects
    (Sample.anonymous VNull) (Sample.env 100 "") Sample.db
  = (json 401 (message "Token de acesso requerido"), Sample.db).
Proof. reflexivity. Qed.

Example gate_no_token :
  @registerRoutes Sample.externals None GET_projects
    {| headers_authorization := Some "Bearer"%string; params_id := "";
       body := VNull |} (Sample.env 100 "") Sample.db
  = (json 401 (message "Token de acesso requerido"), Sample.db).
Proof. reflexivity. Qed.

Example gate_bad_token :
  @registerRoutes Sample.externals None GET_projects
    {| headers_authorization := Some "Bearer other-key:u-ana:ana@x.com"%string;
       params_id := ""; body := VNull |} (Sample.env 100 "") Sample.db
  = (json 403 (message "Token inválido"), Sample.db).
Proof. reflexivity. Qed.

Example gate_good_token :
  @registerRoutes Sample.externals None GET_projects
    (Sample.as_user Sample.ana "" VNull) (Sample.env 100 "") Sample.db
  = (json 200 (VArr [@Project.to_value Sample.externals Sample.site;
                     @Project.to_value Sample.externals Sample.blog]),
     Sample.db).
Proof. vm_compute. reflexivity. Qed.

(** The token is whatever follows the first space: the scheme word is not
    looked at, and a second space right after it leaves no token. *)
Example gate_scheme_not_checked :
  bearer_token (Some "Token abc"%string) = Some "abc"%string
  ∧ bearer_token (Some "Bearer  abc"%string) = None
  ∧ bearer_token (Some ""%string) = None.
Proof. split_and!; reflexivity. Qed.

(** ** Registration and login: what the successful answers are *)

Lemma head_filter_elem {A} (P : A -> Prop) `{!∀ x, Decision (P x)} (l : list A) x :
  head (filter P l) = Some x → x ∈ l ∧ P x.
Proof.
  intros Hx%head_Some_elem_of%list_elem_of_filter. tauto.
Qed.

Lemma head_filter_is_Some {A} (P : A -> Prop) `{!∀ x, Decision (P x)} (l : list A) x :
  x ∈ l → P x → is_Some (head (filter P l)).
Proof.
  intros Hx HP.
  assert (x ∈ filter P l) as Hin by (by apply list_elem_of_filter).
  destruct (filter P l); [by apply not_elem_of_nil in Hin|by eexists].
Qed.

Lemma getUserByEmail_elem email db user :
  getUserByEmail email db = Some user → user ∈ users db ∧ User.email user = email.
Proof. apply (head_filter_elem (fun u => User.email u = email)). Qed.

Lemma getUserByEmail_is_Some email db :
  email ∈ User.email <$> users db → is_Some (getUserByEmail email db).
Proof.
  intros (u & -> & Hu)%list_elem_of_fmap.
  by apply (head_filter_is_Some _ _ u).
Qed.

Lemma getUser_elem `{Externals} id db user :
  getUser id db = inr (Some user) →
  user ∈ users db ∧ uuid_in id = Some (User.id user).
Proof.
  unfold getUser. destruct (uuid_in id) as [i|]; [|done].
  intros [= [Hin <-]%head_filter_elem]. done.
Qed.

Section sessions.
Context `{Externals}.
Variable env_JWT_SECRET : option string.
Local Open Scope string_scope.

Lemma auth_register_created req env db :
  statusCode (auth_register env_JWT_SECRET req env db).1 = 201%Z →
  ∃ data user db',
    Zod.parse (registerSchema (body req)) = inr data
    ∧ getUserByEmail (rd_email data) db = None
    ∧ createUser {| iu_name := rd_name data;
                    iu_email := rd_email data;
                    iu_password := bcrypt_hash (rd_password data) 10 (salt env) |}
                 env db = inr (user, db')
    ∧ auth_register env_JWT_SECRET req env db
      = (json 201 (VObj [("token", VStr (issue_token env_JWT_SECRET user env));
                         ("user", public_user user)]), db').
Proof.
  unfold auth_register. repeat case_match; cbn; try done.
  intros _. by eexists _, _, _.
Qed.

Lemma auth_login_granted req env db :
  statusCode (auth_login env_JWT_SECRET req env db).1 = 200%Z →
  ∃ data user,
    Zod.parse (loginSchema (body req)) = inr data
    ∧ getUserByEmail (ld_email data) db = Some user
    ∧ bcrypt_compare (ld_password data) (User.password user) = true
    ∧ auth_login env_JWT_SECRET req env db
      = (json 200 (VObj [("token", VStr (issue_token env_JWT_SECRET user env));
                         ("user", public_user user)]), db).
Proof.
  unfold auth_login. repeat case_match; cbn; try done.
  intros _. by eexists _, _.
Qed.
End sessions.

(** ** The signing secret *)

Section secret.
Context `{Externals}.
Local Open Scope string_scope.

(** C10. With [JWT_SECRET] unset in the environment, the secret is the
    default ["your-secret-key"]: the tokens that register and login
    return are signed with it (for seven days), and the authenticator
    verifies with it, so a request whose bearer token verifies under that
    string is let through with the token's claims. *)
Theorem default_secret :
  JWT_SECRET None = "your-secret-key"
  ∧ (∀ req env db,
       statusCode (auth_register None req env db).1 = 201%Z →
       ∃ user,
         user ∈ users (auth_register None req env db).2
         ∧ payload (auth_register None req env db).1
           = Some (VObj [("token",
                          VStr (jwt_sign (Claims.mk (uuid_out (User.id user))
                                                    (User.email user))
                                         "your-secret-key" "7d" (now env)));
                         ("user", public_user user)]))
  ∧ (∀ req env db,
       statusCode (auth_login None req env db).1 = 200%Z →
       ∃ user,
         user ∈ users db
         ∧ payload (auth_login None req env db).1
           = Some (VObj [("token",
                          VStr (jwt_sign (Claims.mk (uuid_out (User.id user))
                                                    (User.email user))
                                         "your-secret-key" "7d" (now env)));
                         ("user", public_user user)]))
  ∧ (∀ req env,
       authenticateToken None req env
       = match bearer_token (headers_authorization req) with
         | None => inl (json 401 (message "Token de acesso requerido"))
         | Some token =>
             match jwt_verify token "your-secret-key" (now env) with
             | None => inl (json 403 (message "Token inválido"))
             | Some user => inr user
             end
         end)
  ∧ (∀ token claims req env,
       token ≠ "" → has_char " " token = false →
       headers_authorization req = Some ("Bearer " ++ token) →
       jwt_verify token "your-secret-key" (now env) = Some claims →
       authenticateToken None req env = inr claims
       ∧ ∀ h db, protected None h req env db = h claims req env db).
Proof.
  split_and!; [done|..|done|].
  - intros req env db (data & user & db' & _ & _ & Hc & ->)%auth_register_created.
    exists user. split; [|done]. cbn.
    apply createUser_inv in Hc as (_ & -> & _). cbn.
    apply elem_of_app. right. by apply list_elem_of_singleton.
  - intros req env db (data & user & _ & Hu & _ & ->)%auth_login_granted.
    exists user. split; [|done]. by apply getUserByEmail_elem in Hu as [? _].
  - intros token claims req env Hne Hsp Hh Hv.
    assert (authenticateToken None req env = inr claims) as Hauth.
    { unfold authenticateToken. rewrite Hh, bearer_token_Bearer by done.
      cbn. by rewrite Hv. }
    split; [done|]. intros h db. unfold protected. by rewrite Hauth.
Qed.
End secret.

(** A token forged with the default secret for Bia's id passes the gate of
    a process started without [JWT_SECRET], and is refused by one started
    with a secret of its own. *)
Example forged_token_accepted :
  @authenticateToken Sample.externals None
    {| headers_authorization := Some "Bearer your-secret-key:u-bia:x"%string;
       params_id := ""; body := VNull |} (Sample.env 100 "")
  = inr (Claims.mk "u-bia" "x")
  ∧ @authenticateToken Sample.externals (Some "k3y"%string)
      {| headers_authorization := Some "Bearer your-secret-key:u-bia:x"%string;
         params_id := ""; body := VNull |} (Sample.env 100 "")
    = inl (json 403 (message "Token inválido")).
Proof. split; reflexivity. Qed.

(** ** Public user fields *)

Lemma has_key_project `{Externals} (p : Project.t) :
  has_key "password" (Project.to_value p) = false.
Proof. by destruct p as [? ? [] ? ? ? [] []]. Qed.

Lemma has_key_projects `{Externals} (l : list Project.t) :
  has_key "password" (VArr (Project.to_value <$> l)) = false.
Proof.
  induction l as [|p l IH]; [done|].
  cbn [has_key fmap list_fmap existsb] in *.
  by rewrite has_key_project, IH.
Qed.

Lemma head_filter_fmap {A} (g : A -> A) (P : A -> Prop)
    `{!∀ x, Decision (P x)} (l : list A) :
  (∀ x, P (g x) ↔ P x) →
  head (filter P (g <$> l)) = g <$> head (filter P l).
Proof.
  intros Hg. induction l as [|x l IH]; [done|].
  rewrite fmap_cons, !filter_cons.
  destruct (decide (P x)) as [Hx|Hx].
  - rewrite decide_True by (by apply Hg). done.
  - rewrite decide_False by (by rewrite Hg). done.
Qed.

Section public_fields.
Context `{Externals}.
Variable env_JWT_SECRET : option string.
Local Open Scope string_scope.

Lemma has_key_protected (h : Claims.t -> handler) req env db :
  (∀ user v, payload (h user req env db).1 = Some v →
             has_key "password" v = false) →
  ∀ v, payload (protected env_JWT_SECRET h req env db).1 = Some v →
       has_key "password" v = false.
Proof.
  intros Hh v. unfold protected, authenticateToken.
  repeat case_match; simplify_eq/=; try by intros [= <-].
  apply Hh.
Qed.

Lemma getUserByEmail_with_digests f email db :
  getUserByEmail email (with_digests f db)
  = with_digest f <$> getUserByEmail email db.
Proof.
  unfold getUserByEmail. cbn.
  by rewrite (head_filter_fmap (with_digest f) (fun u => User.email u = email)).
Qed.

Lemma getUser_with_digests f id db :
  getUser id (with_digests f db)
  = match getUser id db with
    | inl e => inl e
    | inr user => inr (with_digest f <$> user)
    end.
Proof.
  unfold getUser. destruct (uuid_in id) as [i|]; [|done]. cbn.
  by rewrite (head_filter_fmap (with_digest f) (fun u => User.id u = i)).
Qed.

Lemma keys_with_digests f db :
  User.id <$> users (with_digests f db) = User.id <$> users db
  ∧ User.email <$> users (with_digests f db) = User.email <$> users db.
Proof.
  cbn. split; rewrite <- list_fmap_compose; by apply list_fmap_ext.
Qed.

(** What a login answers depends on the stored digest only through the
    verdict of [bcrypt.compare] on the submitted password. *)
Lemma login_reads_verdict f req env db :
  (∀ data user,
     Zod.parse (loginSchema (body req)) = inr data →
     getUserByEmail (ld_email data) db = Some user →
     bcrypt_compare (ld_password data) (f user)
     = bcrypt_compare (ld_password data) (User.password user)) →
  (auth_login env_JWT_SECRET req env (with_digests f db)).1
  = (auth_login env_JWT_SECRET req env db).1.
Proof.
  intros Hverdict. unfold auth_login.
  destruct (Zod.parse _) as [errors|data] eqn:Hparse; [done|].
  rewrite getUserByEmail_with_digests.
  destruct (getUserByEmail _ db) as [user|] eqn:Huser; [|done].
  cbn [fmap option_fmap option_map with_digest User.password].
  rewrite (Hverdict data user eq_refl Huser).
  by destruct (bcrypt_compare _ _).
Qed.

Lemma responses_ignore_digests f route req env db :
  route ≠ POST_auth_login →
  (registerRoutes env_JWT_SECRET route req env (with_digests f db)).1
  = (registerRoutes env_JWT_SECRET route req env db).1.
Proof.
  destruct (keys_with_digests f db) as [Hids Hemails].
  intros Hroute. destruct route; try done; cbn [registerRoutes];
    unfold protected;
    try (destruct (authenticateToken _ _ _) as [res|user]; [done|]).
  - unfold auth_register.
    destruct (Zod.parse _) as [errors|data]; [done|].
    rewrite getUserByEmail_with_digests.
    destruct (getUserByEmail _ db) as [u|]; [done|]. cbn [fmap option_fmap option_map].
    unfold createUser. rewrite Hids, Hemails.
    destruct (negb _); [done|]. by repeat case_decide.
  - unfold auth_user. rewrite getUser_with_digests.
    by destruct (getUser _ db) as [e|[u|]].
  - unfold projects_list, getProjects. cbn. by repeat case_match.
  - unfold projects_stats, getProjectStats. cbn. by repeat case_match.
  - unfold projects_create.
    destruct (Zod.parse _) as [errors|data]; [done|].
    destruct (Date_parse _) as [t|]; [|done].
    unfold createProject. rewrite Hids. cbn [projects with_digests].
    destruct (uuid_in _); [|done]. destruct (pg_timestamp _); [|done].
    destruct (negb _); [done|]. by repeat case_decide.
  - unfold projects_get, getProject. cbn. by repeat case_match.
  - unfold projects_update.
    destruct (Zod.parse _) as [errors|data]; [done|].
    destruct (Date_parse _) as [t|]; [|done].
    unfold updateProject. cbn.
    destruct (uuid_in (params_id req)); [|done].
    destruct (uuid_in (Claims.userId user)); [|done].
    destruct (stored _); [|done]. destruct (pg_timestamp _); [|done].
    by destruct (head _).
  - unfold projects_delete, deleteProject. cbn.
    destruct (uuid_in (params_id req)); [|done].
    destruct (uuid_in (Claims.userId user)); [|done].
    by destruct (bool_decide _).
Qed.

(** C9. A successful register (201), login (200) or get-current-user
    (200) answers with a user object whose fields are exactly id, name
    and email, those of a stored user; the token beside it, in the answers
    of register and login, is what jsonwebtoken signs of that user's id
    and email, the secret and the clock, and of nothing else.  No response
    of any route carries a field named password at any depth.  And the
    response of every route is the same whatever digests the store holds,
    as long as, for a login, [bcrypt.compare] gives the same verdict on the
    submitted password: the digest is read only to be compared.  So the
    stored digest is never returned. *)
Theorem public_user_fields :
  (∀ req env db,
     statusCode (auth_register env_JWT_SECRET req env db).1 = 201%Z →
     ∃ user,
       user ∈ users (auth_register env_JWT_SECRET req env db).2
       ∧ payload (auth_register env_JWT_SECRET req env db).1
         = Some (VObj [("token",
                        VStr (jwt_sign (Claims.mk (uuid_out (User.id user))
                                                  (User.email user))
                                       (JWT_SECRET env_JWT_SECRET) "7d"
                                       (now env)));
                       ("user", VObj [("id", VStr (uuid_out (User.id user)));
                                      ("name", VStr (User.name user));
                                      ("email", VStr (User.email user))])]))
  ∧ (∀ req env db,
       statusCode (auth_login env_JWT_SECRET req env db).1 = 200%Z →
       ∃ user,
         user ∈ users db
         ∧ payload (auth_login env_JWT_SECRET req env db).1
           = Some (VObj [("token",
                          VStr (jwt_sign (Claims.mk (uuid_out (User.id user))
                                                    (User.email user))
                                         (JWT_SECRET env_JWT_SECRET) "7d"
                                         (now env)));
                         ("user", VObj [("id", VStr (uuid_out (User.id user)));
                                        ("name", VStr (User.name user));
                                        ("email", VStr (User.email user))])]))
  ∧ (∀ claims req env db,
       statusCode (auth_user claims req env db).1 = 200%Z →
       ∃ user,
         user ∈ users db
         ∧ uuid_in (Claims.userId claims) = Some (User.id user)
         ∧ payload (auth_user claims req env db).1
           = Some (VObj [("id", VStr (uuid_out (User.id user)));
                         ("name", VStr (User.name user));
                         ("email", VStr (User.email user))]))
  ∧ (∀ route req env db,
       match payload (registerRoutes env_JWT_SECRET route req env db).1 with
       | Some v => has_key "password" v = false
       | None => True
       end)
  ∧ (∀ f route req env db,
       (route = POST_auth_login →
        ∀ data user,
          Zod.parse (loginSchema (body req)) = inr data →
          getUserByEmail (ld_email data) db = Some user →
          bcrypt_compare (ld_password data) (f user)
          = bcrypt_compare (ld_password data) (User.password user)) →
       (registerRoutes env_JWT_SECRET route req env (with_digests f db)).1
       = (registerRoutes env_JWT_SECRET route req env db).1).
Proof.
  split_and!.
  - intros req env db (data & user & db' & _ & _ & Hc & ->)%auth_register_created.
    exists user. split; [|done]. cbn.
    apply createUser_inv in Hc as (_ & -> & _). cbn.
    apply elem_of_app. right. by apply list_elem_of_singleton.
  - intros req env db (data & user & _ & Hu & _ & ->)%auth_login_granted.
    exists user. split; [|done]. by apply getUserByEmail_elem in Hu as [? _].
  - intros claims req env db. unfold auth_user.
    destruct (getUser _ _) as [e|[user|]] eqn:Hu; [done| |done].
    intros _. apply getUser_elem in Hu as [? ?]. by exists user.
  - intros route req env db.
    destruct (payload _) as [v|] eqn:Hv; [|done].
    revert v Hv. destruct route; cbn [registerRoutes].
    + unfold auth_register. intros v.
      repeat case_match; simplify_eq/=; by intros [= <-].
    + unfold auth_login. intros v.
      repeat case_match; simplify_eq/=; by intros [= <-].
    + apply has_key_protected. intros user v. unfold auth_user.
      repeat case_match; simplify_eq/=; by intros [= <-].
    + apply has_key_protected. intros user v. unfold projects_list.
      repeat case_match; simplify_eq/=; intros [= <-]; try done.
      apply has_key_projects.
    + apply has_key_protected. intros user v. unfold projects_stats.
      repeat case_match; simplify_eq/=; by intros [= <-].
    + apply has_key_protected. intros user v. unfold projects_create.
      repeat case_match; simplify_eq/=; intros [= <-]; try done.
      apply has_key_project.
    + apply has_key_protected. intros user v. unfold projects_get.
      repeat case_match; simplify_eq/=; intros [= <-]; try done.
      apply has_key_project.
    + apply has_key_protected. intros user v. unfold projects_update.
      repeat case_match; simplify_eq/=; intros [= <-]; try done.
      apply has_key_project.
    + apply has_key_protected. intros user v. unfold projects_delete.
      repeat case_match; simplify_eq/=; by intros [= <-].
  - intros f route req env db Hlogin.
    destruct route; try by apply responses_ignore_digests.
    cbn [registerRoutes]. apply login_reads_verdict. by apply Hlogin.
Qed.
End public_fields.

(** Ana logs in: the answer has her id, name and email and no digest. *)
Example login_payload :
  @auth_login Sample.externals None
    (Sample.anonymous (Sample.login_body "ana@x.com" "secret1"))
    (Sample.env 100 "") Sample.db
  = (json 200
       (VObj [("token", VStr "your-secret-key:u-ana:ana@x.com");
              ("user", VObj [("id", VStr "u-ana"); ("name", VStr "Ana");
                             ("email", VStr "ana@x.com")])]),
     Sample.db)%string.
Proof. vm_compute. reflexivity. Qed.

(** ** Login failures *)

Section login.
Context `{Externals}.
Variable env_JWT_SECRET : option string.
Local Open Scope string_scope.

Lemma loginSchema_fields (input : value) (d : LoginData) :
  Zod.parse (loginSchema input) = inr d →
  prop "email" input = Some (VStr (ld_email d))
  ∧ prop "password" input = Some (VStr (ld_password d)).
Proof.
  intros Hparse%parse_inr. destruct input; try done.
  cbn -[Zod.string_] in Hparse.
  destruct (Zod.string_ _ (assoc "email" fields)) as [e1 [email|]] eqn:E1;
    destruct (Zod.string_ _ (assoc "password" fields)) as [e2 [password|]] eqn:E2;
    simplify_eq/=.
  apply string_inv in E1 as [-> _]. by apply string_inv in E2 as [-> _].
Qed.

(** C3, as the code has it.  A login request that passes the login schema
    is answered 401 with the one message "Email ou senha inválidos" both
    when its email matches no stored user and when it matches one whose
    digest the password fails; and for every request with an email and a
    password, valid or not, the answer in the first situation equals the
    answer in the second (a request the schema rejects is answered 400
    with the schema's message in both). *)
Theorem login_failures_uniform (req : Request) (env : Env) :
  (∀ data,
     Zod.parse (loginSchema (body req)) = inr data →
     (∀ db, getUserByEmail (ld_email data) db = None →
            auth_login env_JWT_SECRET req env db
            = (json 401 (message "Email ou senha inválidos"), db))
     ∧ (∀ db user,
          getUserByEmail (ld_email data) db = Some user →
          bcrypt_compare (ld_password data) (User.password user) = false →
          auth_login env_JWT_SECRET req env db
          = (json 401 (message "Email ou senha inválidos"), db)))
  ∧ (∀ email password db1 db2 user,
       prop "email" (body req) = Some (VStr email) →
       prop "password" (body req) = Some (VStr password) →
       getUserByEmail email db1 = None →
       getUserByEmail email db2 = Some user →
       bcrypt_compare password (User.password user) = false →
       (auth_login env_JWT_SECRET req env db1).1
       = (auth_login env_JWT_SECRET req env db2).1).
Proof.
  split.
  - intros data Hparse. split.
    + intros db Hnone. unfold auth_login. by rewrite Hparse, Hnone.
    + intros db user Hsome Hwrong. unfold auth_login.
      by rewrite Hparse, Hsome, Hwrong.
  - intros email password db1 db2 user Hemail Hpassword Hnone Hsome Hwrong.
    unfold auth_login.
    destruct (Zod.parse (loginSchema (body req))) as [errors|data] eqn:Hparse;
      [done|].
    apply loginSchema_fields in Hparse as [He Hp].
    rewrite Hemail in He. rewrite Hpassword in Hp. simplify_eq.
    by rewrite Hnone, Hsome, Hwrong.
Qed.

(** Whatever the libraries, a password of length one to five sent with an
    email that zod accepts is refused by the schema. *)
Lemma login_short_password email password env db :
  zod_email email = true →
  (1 ≤ js_length email)%nat →
  (1 ≤ js_length password < 6)%nat →
  auth_login env_JWT_SECRET
    {| headers_authorization := None; params_id := "";
       body := VObj [("email", VStr email); ("password", VStr password)] |}
    env db
  = (json 400 (message "Senha deve ter pelo menos 6 caracteres"), db).
Proof.
  intros Hemail Hlen [Hlo Hhi]. unfold auth_login, loginSchema. cbn.
  repeat (case_decide; try congruence).
  unfold Zod.string_. rewrite !filter_cons, filter_nil. cbn. rewrite Hemail.
  rewrite !bool_decide_eq_true_2 by done.
  rewrite (bool_decide_eq_false_2 (6 ≤ _)%nat) by lia.
  by repeat case_decide.
Qed.
End login.

(** Against C3 as stated: Ana is a stored user and "abc" is not her password
    (the digest check would fail), and an unknown email with the same
    password matches no user, yet neither request is answered 401: both get
    400 with the schema's message. *)
Lemma login_short_password_not_401 :
  getUserByEmail "ana@x.com" Sample.db = Some Sample.ana
  ∧ @bcrypt_compare Sample.externals "abc" (User.password Sample.ana) = false
  ∧ @auth_login Sample.externals None
      (Sample.anonymous (Sample.login_body "ana@x.com" "abc"))
      (Sample.env 100 "") Sample.db
    = (json 400 (message "Senha deve ter pelo menos 6 caracteres"), Sample.db)
  ∧ getUserByEmail "ghost@x.com" Sample.db = None
  ∧ @auth_login Sample.externals None
      (Sample.anonymous (Sample.login_body "ghost@x.com" "abc"))
      (Sample.env 100 "") Sample.db
    = (json 400 (message "Senha deve ter pelo menos 6 caracteres"), Sample.db).
Proof. split_and!; vm_compute; reflexivity. Qed.

(** With passwords the schema accepts, both failures are the same 401. *)
Example login_failures_401 :
  @auth_login Sample.externals None
    (Sample.anonymous (Sample.login_body "ana@x.com" "wrong-password"))
    (Sample.env 100 "") Sample.db
  = (json 401 (message "Email ou senha inválidos"), Sample.db)
  ∧ @auth_login Sample.externals None
      (Sample.anonymous (Sample.login_body "ghost@x.com" "wrong-password"))
      (Sample.env 100 "") Sample.db
    = (json 401 (message "Email ou senha inválidos"), Sample.db).
Proof. split; vm_compute; reflexivity. Qed.

(** The length of a password is counted as JavaScript counts it: "maçã12"
    has six code units and passes, "maçã" has four and does not. *)
Example login_password_length :
  js_length "maçã" = 4
  ∧ @auth_login Sample.externals None
      (Sample.anonymous (Sample.login_body "ana@x.com" "maçã"))
      (Sample.env 100 "") Sample.db
    = (json 400 (message "Senha deve ter pelo menos 6 caracteres"), Sample.db)
  ∧ @auth_login Sample.externals None
      (Sample.anonymous (Sample.login_body "ana@x.com" "maçã12"))
      (Sample.env 100 "") Sample.db
    = (json 401 (message "Email ou senha inválidos"), Sample.db).
Proof. split_and!; vm_compute; reflexivity. Qed.

(** ** Registering an email twice *)

Section registration.
Context `{Externals}.
Variable env_JWT_SECRET : option string.
Local Open Scope string_scope.

Lemma registerSchema_fields (input : value) (d : RegisterData) :
  Zod.parse (registerSchema input) = inr d →
  prop "email" input = Some (VStr (rd_email d)).
Proof.
  intros Hparse%parse_inr. destruct input; try done.
  cbn -[Zod.string_] in Hparse.
  destruct (Zod.string_ _ (assoc "name" fields)) as [e1 [name|]] eqn:E1;
    destruct (Zod.string_ _ (assoc "email" fields)) as [e2 [email|]] eqn:E2;
    destruct (Zod.string_ _ (assoc "password" fields)) as [e3 [password|]] eqn:E3;
    destruct (Zod.string_ _ (assoc "confirmPassword" fields))
      as [e4 [confirmPassword|]] eqn:E4;
    simplify_eq/=.
  by apply string_inv in E2 as [-> _].
Qed.

(** No route removes a user or changes one: the users table only grows. *)
Lemma registerRoutes_users route req env db :
  ∃ more, users (registerRoutes env_JWT_SECRET route req env db).2
          = (users db ++ more)%list.
Proof.
  assert (∃ more, users db = (users db ++ more)%list) as Hsame
    by (exists []; by rewrite app_nil_r).
  destruct route; cbn [registerRoutes]; unfold protected;
    try (destruct (authenticateToken _ _ _) as [res|user]; [done|]).
  - unfold auth_register. repeat case_match; try done.
    match goal with
    | Hc : createUser _ _ _ = inr _ |- _ =>
        apply createUser_inv in Hc as (_ & -> & _)
    end.
    by eexists.
  - by rewrite auth_login_ok.
  - unfold auth_user. by repeat case_match.
  - unfold projects_list. by case_match.
  - unfold projects_stats. by case_match.
  - unfold projects_create. repeat case_match; try done.
    match goal with
    | Hc : createProject _ _ _ = inr _ |- _ =>
        apply createProject_inv in Hc as (? & ? & _ & _ & _ & -> & _)
    end.
    done.
  - unfold projects_get. by repeat case_match.
  - unfold projects_update. repeat case_match; try done;
      match goal with
      | Hu : updateProject _ _ _ _ _ = inr _ |- _ =>
          apply updateProject_inv in Hu
            as (? & ? & ? & ? & _ & _ & _ & _ & _ & Hdb);
          simplify_eq/=; done
      end.
  - unfold projects_delete. repeat case_match; try done;
      match goal with
      | Hd : deleteProject _ _ _ = inr _ |- _ =>
          apply deleteProject_inv in Hd as (? & ? & _ & _ & _ & Hdb);
          simplify_eq/=; done
      end.
Qed.

Lemma run_users trace db user :
  user ∈ users db → user ∈ users (run env_JWT_SECRET trace db).
Proof.
  revert db. induction trace as [|[[route req] env] trace IH]; intros db Hu;
    [done|].
  cbn. apply IH.
  destruct (registerRoutes_users route req env db) as [more ->].
  apply elem_of_app. by left.
Qed.

Lemma auth_register_taken req env db data :
  Zod.parse (registerSchema (body req)) = inr data →
  rd_email data ∈ User.email <$> users db →
  auth_register env_JWT_SECRET req env db
  = (json 400 (message "Email já está em uso"), db).
Proof.
  intros Hparse [user Huser]%getUserByEmail_is_Some.
  unfold auth_register. by rewrite Hparse, Huser.
Qed.

(** C4, as the code has it.  After a registration that succeeded (201),
    and after any further requests, a registration request with the same
    email that passes the registration schema is answered 400 with the
    message "Email já está em uso" and leaves the store as it was; and the
    users table itself refuses a row whose email is already there (with a
    constraint violation, when it takes the row's values at all). *)
Theorem register_twice (req1 req2 : Request) (env1 env2 : Env) (db : Db)
    (trace : list (Route * Request * Env)) (data2 : RegisterData) :
  statusCode (auth_register env_JWT_SECRET req1 env1 db).1 = 201%Z →
  Zod.parse (registerSchema (body req2)) = inr data2 →
  prop "email" (body req2) = prop "email" (body req1) →
  auth_register env_JWT_SECRET req2 env2
    (run env_JWT_SECRET trace (auth_register env_JWT_SECRET req1 env1 db).2)
  = (json 400 (message "Email já está em uso"),
     run env_JWT_SECRET trace (auth_register env_JWT_SECRET req1 env1 db).2)
  ∧ (∀ insertUser env db',
       iu_email insertUser ∈ User.email <$> users db' →
       (∃ error, createUser insertUser env db' = inl error)
       ∧ (pg_varchar 255 (iu_name insertUser) = true →
          pg_varchar 255 (iu_email insertUser) = true →
          pg_text (iu_password insertUser) = true →
          ∃ constraint,
            createUser insertUser env db' = inl (ConstraintViolation constraint))).
Proof.
  intros (data1 & user & db1 & Hparse1 & _ & Hc & ->)%auth_register_created
         Hparse2 Hemail.
  split.
  - apply (auth_register_taken _ _ _ data2 Hparse2). cbn [snd].
    apply registerSchema_fields in Hparse1, Hparse2.
    assert (rd_email data2 = rd_email data1) as -> by congruence.
    apply createUser_inv in Hc as (Huser & -> & _).
    apply (list_elem_of_fmap_2' User.email _ user); [|by rewrite Huser].
    apply run_users. cbn.
    apply elem_of_app. right. by apply list_elem_of_singleton.
  - intros insertUser env db' Hin. unfold createUser. split.
    + destruct (negb _); [by eexists|].
      case_decide; [by eexists|]. rewrite decide_True by done. by eexists.
    + intros -> -> ->. cbn.
      case_decide; [by eexists|]. rewrite decide_True by done. by eexists.
Qed.
End registration.

(** Ana registers; after Bia has registered too, a second registration of
    Ana's email, with another name and password, is refused as a
    duplicate. *)
Lemma register_twice_witness :
  ∃ db2,
    users db2 = [Sample.ana; Sample.bia]
    ∧ @auth_register Sample.externals None
        (Sample.anonymous (Sample.register_body "Ana Maria" "ana@x.com" "secret9" "secret9"))
        (Sample.env 30 "u-dani") db2
      = (json 400 (message "Email já está em uso"), db2).
Proof.
  eexists. split; [|
    apply (@register_twice Sample.externals None
             (Sample.anonymous (Sample.register_body "Ana" "ana@x.com" "secret1" "secret1"))
             (Sample.anonymous (Sample.register_body "Ana Maria" "ana@x.com" "secret9" "secret9"))
             (Sample.env 10 "u-ana") (Sample.env 30 "u-dani") empty_db
             [(POST_auth_register,
               Sample.anonymous (Sample.register_body "Bia" "bia@x.com" "secret2" "secret2"),
               Sample.env 20 "u-bia")]
             {| rd_name := "Ana Maria"; rd_email := "ana@x.com";
                rd_password := "secret9"; rd_confirmPassword := "secret9" |});
    vm_compute; reflexivity].
  vm_compute. reflexivity.
Defined.

(** Against C4 as stated: the second registration has the same email, but a
    password the schema refuses; it is answered 400 with the schema's
    message, not with the duplicate-email message. *)
Lemma register_twice_invalid_second :
  statusCode
    (@auth_register Sample.externals None
       (Sample.anonymous (Sample.register_body "Ana" "ana@x.com" "secret1" "secret1"))
       (Sample.env 10 "u-ana") empty_db).1 = 201%Z
  ∧ @auth_register Sample.externals None
      (Sample.anonymous (Sample.register_body "Ana" "ana@x.com" "abc" "abc"))
      (Sample.env 20 "u-edu")
      (@auth_register Sample.externals None
         (Sample.anonymous (Sample.register_body "Ana" "ana@x.com" "secret1" "secret1"))
         (Sample.env 10 "u-ana") empty_db).2
    = (json 400 (message "Senha deve ter pelo menos 6 caracteres"),
       (@auth_register Sample.externals None
          (Sample.anonymous (Sample.register_body "Ana" "ana@x.com" "secret1" "secret1"))
          (Sample.env 10 "u-ana") empty_db).2)
  ∧ message "Senha deve ter pelo menos 6 caracteres" ≠ message "Email já está em uso".
Proof. split_and!; [vm_compute; reflexivity..|discriminate]. Qed.

(** * Further properties of the store and the routes *)

(** ** Reads find nothing, writes that fail write nothing *)

Lemma updateProject_None `{Externals} id userId updates env db db' :
  updateProject id userId updates env db = inr (None, db') → db' = db.
Proof.
  intros (i & u & values & t & _ & _ & _ & _ & Hhead & ->)%updateProject_inv.
  assert (filter (id_and_owner i u) (projects db) = []) as Hnil.
  { by destruct (filter _ _). }
  by rewrite update_none, db_eta.
Qed.

Lemma deleteProject_false `{Externals} id userId db db' :
  deleteProject id userId db = inr (false, db') → db' = db.
Proof.
  intros (i & u & _ & _ & Hcount & ->)%deleteProject_inv.
  symmetry in Hcount. apply bool_decide_eq_false in Hcount.
  assert (filter (id_and_owner i u) (projects db) = []) as Hnil.
  { destruct (filter _ _); [done|]. cbn in Hcount. lia. }
  by rewrite delete_none, db_eta.
Qed.

Section outcomes.
Context `{Externals}.
Variable env_JWT_SECRET : option string.
Local Open Scope string_scope.

Ltac outcome :=
  repeat case_match; simplify_eq/=; (split; [solve [repeat constructor]|]);
  try (intros Hne; by destruct Hne); try (intros _; by auto 8).

(** Every response of the API has one of eight status codes, and a route
    that answers anything but 201, 200 on PUT, or 204 has left the store
    exactly as it was: a failed request writes nothing, and neither does a
    read or a login. *)
Theorem only_success_writes (route : Route) (req : Request) (env : Env) (db : Db) :
  statusCode (registerRoutes env_JWT_SECRET route req env db).1
    ∈ [200; 201; 204; 400; 401; 403; 404; 500]%Z
  ∧ ((registerRoutes env_JWT_SECRET route req env db).2 ≠ db →
     (route = POST_auth_register
      ∧ statusCode (registerRoutes env_JWT_SECRET route req env db).1 = 201%Z)
     ∨ (route = POST_projects
        ∧ statusCode (registerRoutes env_JWT_SECRET route req env db).1 = 201%Z)
     ∨ (route = PUT_projects_id
        ∧ statusCode (registerRoutes env_JWT_SECRET route req env db).1 = 200%Z)
     ∨ (route = DELETE_projects_id
        ∧ statusCode (registerRoutes env_JWT_SECRET route req env db).1 = 204%Z)).
Proof.
  destruct route; cbn [registerRoutes]; unfold protected, authenticateToken.
  - unfold auth_register. outcome.
  - unfold auth_login. outcome.
  - unfold auth_user. outcome.
  - unfold projects_list. outcome.
  - unfold projects_stats. outcome.
  - unfold projects_create. outcome.
  - unfold projects_get. outcome.
  - unfold projects_update. outcome.
    match goal with
    | Hu : updateProject _ _ _ _ _ = inr (None, _) |- _ =>
        apply updateProject_None in Hu as ->
    end.
    done.
  - unfold projects_delete. outcome.
    match goal with
    | Hd : deleteProject _ _ _ = inr (false, _) |- _ =>
        apply deleteProject_false in Hd as ->
    end.
    done.
Qed.
End outcomes.

(** ** What a request can change of another user's projects *)

Lemma owned_after_update (a b id : uuid) (f : Project.t -> Project.t)
    (l : list Project.t) :
  b ≠ a → (∀ p, Project.userId (f p) = Project.userId p) →
  filter (owned_by a)
    ((fun p => if decide (id_and_owner id b p) then f p else p) <$> l)
  = filter (owned_by a) l.
Proof.
  intros Hb Hf. induction l as [|p l IH]; [done|].
  rewrite fmap_cons, !filter_cons, IH.
  destruct (decide (id_and_owner id b p)) as [[_ Hown]|_]; [|done].
  rewrite !decide_False; [done|..]; unfold owned_by; rewrite ?Hf; congruence.
Qed.

Lemma owned_after_delete (a b id : uuid) (l : list Project.t) :
  b ≠ a →
  filter (owned_by a) (filter (fun p => ¬ id_and_owner id b p) l)
  = filter (owned_by a) l.
Proof.
  intros Hb. rewrite list_filter_filter. apply list_filter_iff.
  unfold owned_by, id_and_owner. intros p. split; [tauto|].
  intros Hown. split; [done|]. intros [_ ?]. congruence.
Qed.

Lemma select_of_owned (id a : uuid) (l : list Project.t) :
  filter (id_and_owner id a) l
  = filter (id_and_owner id a) (filter (owned_by a) l).
Proof.
  rewrite list_filter_filter_l; [done|]. by intros p [_ ?].
Qed.

Section foreign_requests.
Context `{Externals}.
Variable env_JWT_SECRET : option string.
Local Open Scope string_scope.

Lemma owned_after_route route req env db a :
  (∀ user, authenticateToken env_JWT_SECRET req env = inr user →
           uuid_in (Claims.userId user) ≠ Some a) →
  filter (owned_by a) (projects (registerRoutes env_JWT_SECRET route req env db).2)
  = filter (owned_by a) (projects db).
Proof.
  intros Hother.
  destruct route; cbn [registerRoutes]; unfold protected;
    try (destruct (authenticateToken _ _ _) as [res|user] eqn:Hauth; [done|];
         specialize (Hother user eq_refl)).
  - unfold auth_register. repeat case_match; try done.
    match goal with
    | Hc : createUser _ _ _ = inr _ |- _ =>
        apply createUser_inv in Hc as (_ & -> & _)
    end.
    done.
  - by rewrite auth_login_ok.
  - unfold auth_user. by repeat case_match.
  - unfold projects_list. by case_match.
  - unfold projects_stats. by case_match.
  - unfold projects_create. repeat case_match; try done.
    match goal with
    | Hc : createProject _ _ _ = inr _ |- _ =>
        apply createProject_inv in Hc as (owner & ? & Howner & _ & -> & -> & _)
    end.
    cbn in Howner. cbn.
    rewrite filter_app, filter_cons_False, filter_nil, app_nil_r; [done|].
    unfold owned_by. cbn. congruence.
  - unfold projects_get. by repeat case_match.
  - unfold projects_update. repeat case_match; try done;
      match goal with
      | Hu : updateProject _ _ _ _ _ = inr _ |- _ =>
          apply updateProject_inv in Hu
            as (? & ? & ? & ? & _ & Hu' & _ & _ & _ & Hdb)
      end;
      simplify_eq/=; apply owned_after_update; solve [congruence|done].
  - unfold projects_delete. repeat case_match; try done;
      match goal with
      | Hd : deleteProject _ _ _ = inr _ |- _ =>
          apply deleteProject_inv in Hd as (? & ? & _ & Hu' & _ & Hdb)
      end;
      simplify_eq/=; apply owned_after_delete; solve [congruence|done].
Qed.

(** A request that is not authenticated as [a] (one the gate refuses, one
    whose token carries an identity that the store does not read as [a],
    a registration or a login) leaves [a]'s projects as they are, whatever
    the route and the body: [a]'s rows are the same, and [a]'s list,
    statistics and every fetch by id answer as before. *)
Theorem foreign_requests_change_nothing (route : Route) (req : Request)
    (env : Env) (db : Db) (a : uuid) :
  (∀ user, authenticateToken env_JWT_SECRET req env = inr user →
           uuid_in (Claims.userId user) ≠ Some a) →
  filter (owned_by a) (projects (registerRoutes env_JWT_SECRET route req env db).2)
  = filter (owned_by a) (projects db)
  ∧ ∀ userId,
      uuid_in userId = Some a →
      getProjects userId (registerRoutes env_JWT_SECRET route req env db).2
      = getProjects userId db
      ∧ getProjectStats userId (registerRoutes env_JWT_SECRET route req env db).2
        = getProjectStats userId db
      ∧ ∀ id, getProject id userId (registerRoutes env_JWT_SECRET route req env db).2
              = getProject id userId db.
Proof.
  intros Hother.
  pose proof (owned_after_route route req env db a Hother) as Hsame.
  split; [done|]. intros userId Ha. split_and!.
  - unfold getProjects. by rewrite Ha, Hsame.
  - unfold getProjectStats. by rewrite Ha, Hsame.
  - intros id. unfold getProject. rewrite Ha.
    destruct (uuid_in id) as [i|]; [|done].
    by rewrite (select_of_owned i a (projects _)), Hsame, <- select_of_owned.
Qed.
End foreign_requests.

(** Bia deletes her own project and then tries Ana's: Ana's list is the
    same after both requests. *)
Lemma foreign_requests_change_nothing_witness :
  @getProjects Sample.externals "u-ana"
    (@registerRoutes Sample.externals None DELETE_projects_id
       (Sample.as_user Sample.bia "p-2" VNull) (Sample.env 100 "") Sample.db).2
  = inr [Sample.site; Sample.blog]
  ∧ @getProjects Sample.externals "u-ana"
      (@registerRoutes Sample.externals None DELETE_projects_id
         (Sample.as_user Sample.bia "p-1" VNull) (Sample.env 100 "") Sample.db).2
    = inr [Sample.site; Sample.blog].
Proof.
  split.
  - rewrite (proj1 (proj2 (@foreign_requests_change_nothing Sample.externals None
                      DELETE_projects_id (Sample.as_user Sample.bia "p-2" VNull)
                      (Sample.env 100 "") Sample.db (Uuid 1)
                      ltac:(by intros user [= <-])) "u-ana" eq_refl)).
    vm_compute. reflexivity.
  - rewrite (proj1 (proj2 (@foreign_requests_change_nothing Sample.externals None
                      DELETE_projects_id (Sample.as_user Sample.bia "p-1" VNull)
                      (Sample.env 100 "") Sample.db (Uuid 1)
                      ltac:(by intros user [= <-])) "u-ana" eq_refl)).
    vm_compute. reflexivity.
Defined.

(** ** What the schemas accept *)

Section acceptance.
Context `{Externals}.
Local Open Scope string_scope.

Lemma string_accepts checks input s :
  Zod.string_ checks input = ([], Some s)
  ↔ input = Some (VStr s) ∧ Forall (fun c => Zod.passes c s = true) checks.
Proof.
  split.
  - intros [-> Hes]%string_inv. split; [done|].
    symmetry in Hes. apply fmap_nil_inv in Hes.
    apply Forall_forall. intros c Hc.
    pose proof (filter_none_inv _ _ c Hes Hc) as Hpass.
    apply not_false_iff_true, Hpass.
  - intros [-> Hall]. unfold Zod.string_.
    rewrite filter_none; [done|].
    intros c Hc. rewrite Forall_forall in Hall. rewrite (Hall c Hc). done.
Qed.

Lemma string_issues checks input es v :
  Zod.string_ checks input = (es, v) → v = None → es ≠ [].
Proof.
  unfold Zod.string_. destruct input as [[]|]; intros [= <- <-]; done.
Qed.

Lemma optional_nullable_issues input es v :
  Zod.optional_nullable_string input = (es, v) → v = None → es ≠ [].
Proof.
  unfold Zod.optional_nullable_string.
  destruct input as [[]|]; intros [= <- <-]; done.
Qed.

Lemma enum_issues options input es v :
  Zod.enum options input = (es, v) → v = None → es ≠ [].
Proof.
  unfold Zod.enum. destruct input as [[]|]; try by intros [= <- <-].
  case_decide; by intros [= <- <-].
Qed.

Lemma min_passes n msg s :
  Zod.passes (Zod.min n msg) s = true ↔ (n ≤ js_length s)%nat.
Proof. cbn. apply bool_decide_eq_true. Qed.

Ltac checks_inv :=
  repeat match goal with
         | Hf : Forall _ (_ :: _) |- _ => apply Forall_cons in Hf as [? Hf]
         | Hm : Zod.passes (Zod.min _ _) _ = true |- _ => apply min_passes in Hm
         end.

Lemma loginSchema_accepts fields email password :
  Zod.parse (loginSchema (VObj fields))
  = inr {| ld_email := email; ld_password := password |}
  ↔ assoc "email" fields = Some (VStr email)
    ∧ assoc "password" fields = Some (VStr password)
    ∧ (1 ≤ js_length email)%nat ∧ zod_email email = true
    ∧ (6 ≤ js_length password)%nat.
Proof.
  split.
  - intros Hparse%parse_inr. cbn -[Zod.string_] in Hparse.
    destruct (Zod.string_ _ (assoc "email" fields)) as [e1 [e|]] eqn:E1;
      destruct (Zod.string_ _ (assoc "password" fields)) as [e2 [p|]] eqn:E2;
      simplify_eq/=.
    match goal with
    | Happ : (_ ++ _)%list = [] |- _ => apply app_eq_nil in Happ as [-> ->]
    end.
    apply string_accepts in E1 as [-> Hc1], E2 as [-> Hc2].
    checks_inv. by split_and!.
  - intros (He & Hp & Hlen & Hemail & Hlen6).
    unfold loginSchema.
    rewrite (proj2 (string_accepts _ (assoc "email" fields) email)),
            (proj2 (string_accepts _ (assoc "password" fields) password)).
    + done.
    + split; [done|]. rewrite !Forall_cons, !min_passes. split_and!; [lia|done|done].
    + split; [done|]. rewrite !Forall_cons, !min_passes. by split_and!.
Qed.

Lemma registerSchema_accepts fields name email password confirmPassword :
  Zod.parse (registerSchema (VObj fields))
  = inr {| rd_name := name; rd_email := email; rd_password := password;
           rd_confirmPassword := confirmPassword |}
  ↔ assoc "name" fields = Some (VStr name)
    ∧ assoc "email" fields = Some (VStr email)
    ∧ assoc "password" fields = Some (VStr password)
    ∧ assoc "confirmPassword" fields = Some (VStr confirmPassword)
    ∧ (2 ≤ js_length name)%nat
    ∧ (1 ≤ js_length email)%nat ∧ zod_email email = true
    ∧ (6 ≤ js_length password)%nat
    ∧ confirmPassword = password.
Proof.
  split.
  - intros Hparse%parse_inr. cbn -[Zod.string_] in Hparse.
    destruct (Zod.string_ _ (assoc "name" fields)) as [e1 [n|]] eqn:E1;
      destruct (Zod.string_ _ (assoc "email" fields)) as [e2 [e|]] eqn:E2;
      destruct (Zod.string_ _ (assoc "password" fields)) as [e3 [p|]] eqn:E3;
      destruct (Zod.string_ _ (assoc "confirmPassword" fields)) as [e4 [c|]] eqn:E4;
      simplify_eq/=.
    repeat match goal with
           | Happ : (_ ++ _)%list = [] |- _ => apply app_eq_nil in Happ as [-> Happ]
           end.
    case_decide; [|done]. subst.
    apply string_accepts in E1 as [-> Hc1], E2 as [-> Hc2], E3 as [-> Hc3],
                            E4 as [-> Hc4].
    checks_inv. by split_and!.
  - intros (Hn & He & Hp & Hc & Hlen2 & Hlen1 & Hemail & Hlen6 & ->).
    unfold registerSchema.
    rewrite (proj2 (string_accepts _ (assoc "name" fields) name)),
            (proj2 (string_accepts _ (assoc "email" fields) email)),
            (proj2 (string_accepts _ (assoc "password" fields) password)),
            (proj2 (string_accepts _ (assoc "confirmPassword" fields) password)).
    + cbn. by rewrite decide_True.
    + split; [done|]. rewrite !Forall_cons, !min_passes. split; [lia|done].
    + split; [done|]. rewrite !Forall_cons, !min_passes. split_and!; [lia|done|done].
    + split; [done|]. rewrite !Forall_cons, !min_passes. by split_and!.
    + split; [done|]. rewrite !Forall_cons, !min_passes. split_and!; [lia|done|done].
Qed.

Lemma projectSchema_accepts fields name description status startDate :
  Zod.parse (projectSchema (VObj fields))
  = inr {| pd_name := name; pd_description := description;
           pd_status := status; pd_startDate := startDate |}
  ↔ assoc "name" fields = Some (VStr name)
    ∧ Zod.optional_nullable_string (assoc "description" fields)
      = ([], Some description)
    ∧ assoc "status" fields = Some (VStr status)
    ∧ assoc "startDate" fields = Some (VStr startDate)
    ∧ (2 ≤ js_length name)%nat
    ∧ status ∈ status_enum
    ∧ (1 ≤ js_length startDate)%nat
    ∧ is_Some (Date_parse startDate).
Proof.
  split.
  - intros Hparse%parse_inr. cbn -[Zod.string_ Zod.enum] in Hparse.
    destruct (Zod.string_ _ (assoc "name" fields)) as [e1 [n|]] eqn:E1;
      destruct (Zod.optional_nullable_string _) as [e2 [d|]] eqn:E2;
      destruct (Zod.enum _ _) as [e3 [st|]] eqn:E3;
      destruct (Zod.string_ _ (assoc "startDate" fields)) as [e4 [sd|]] eqn:E4;
      simplify_eq/=.
    repeat match goal with
           | Happ : (_ ++ _)%list = [] |- _ => apply app_eq_nil in Happ as [-> Happ]
           end.
    subst.
    apply enum_inv in E3 as (-> & Hin & _).
    apply string_accepts in E1 as [-> Hc1], E4 as [-> Hc4].
    checks_inv.
    match goal with
    | Hd : Zod.passes (Zod.refine _ _) _ = true |- _ =>
        cbn in Hd; apply bool_decide_eq_true in Hd
    end.
    by split_and!.
  - intros (Hn & Hd & Hs & Hsd & Hlen2 & Hin & Hlen1 & Hdate).
    unfold projectSchema.
    rewrite (proj2 (string_accepts _ (assoc "name" fields) name)),
            (proj2 (string_accepts _ (assoc "startDate" fields) startDate)),
            Hd, Hs.
    + unfold Zod.enum. by rewrite decide_True.
    + split; [done|]. rewrite !Forall_cons, !min_passes.
      split_and!; [done| |done]. cbn. by apply bool_decide_eq_true.
    + split; [done|]. rewrite !Forall_cons, !min_passes. split_and!; [lia|done|done].
Qed.
End acceptance.

(** ** What reaches the store *)

Section stored_values.
Context `{Externals}.
Variable env_JWT_SECRET : option string.
Local Open Scope string_scope.


(** Every reachable state keeps what the two tables declare: user ids,
    user emails and project ids are each distinct, and every project's
    owner id is the id of a stored user. *)
Theorem reachable_constraints (db : Db) :
  reachable env_JWT_SECRET db →
  NoDup (User.id <$> users db)
  ∧ NoDup (User.email <$> users db)
  ∧ NoDup (Project.id <$> projects db)
  ∧ ∀ p, p ∈ projects db →
         ∃ u, u ∈ users db ∧ User.id u = Project.userId p.
Proof.
  intros [[Hu He Hp Hfk] _]%reachable_ok. split_and!; try done.
  intros p (u & Hid & Hin)%Hfk%list_elem_of_fmap. by exists u.
Qed.


End stored_values.

Lemma scenario_reachable : @reachable Sample.externals None Sample.scenario.
Proof.
  unfold Sample.scenario. apply reachable_step, reachable_step, reachable_empty.
Qed.

Lemma reachable_constraints_witness :
  NoDup (User.email <$> users Sample.scenario)
  ∧ NoDup (Project.id <$> projects Sample.scenario)
  ∧ ∃ u, u ∈ users Sample.scenario ∧ User.id u = Project.userId Sample.site.
Proof.
  destruct (@reachable_constraints Sample.externals None Sample.scenario
              scenario_reachable) as (_ & He & Hp & Hfk).
  split_and!; [done|done|]. apply Hfk. vm_compute. left.
Defined.


(** ** Sessions: register, then log in and use the token *)

Lemma head_filter_first {A} (P : A -> Prop) `{!∀ x, Decision (P x)}
    (l more : list A) (x : A) :
  (∀ y, y ∈ l → ¬ P y) → P x →
  head (filter P (l ++ [x] ++ more)) = Some x.
Proof.
  intros Hl Hx. rewrite !filter_app, (filter_none _ _ Hl).
  by rewrite filter_cons_True.
Qed.

Section sessions_compose.
Context `{Externals}.
Variable env_JWT_SECRET : option string.
Local Open Scope string_scope.

Lemma run_users_app trace db :
  ∃ more, users (run env_JWT_SECRET trace db) = (users db ++ more)%list.
Proof.
  revert db. induction trace as [|[[route req] env] trace IH]; intros db.
  - exists []. by rewrite app_nil_r.
  - change (run env_JWT_SECRET ((route, req, env) :: trace) db)
      with (run env_JWT_SECRET trace
              (registerRoutes env_JWT_SECRET route req env db).2).
    destruct (IH (registerRoutes env_JWT_SECRET route req env db).2)
      as [more1 ->].
    destruct (registerRoutes_users env_JWT_SECRET route req env db) as [more2 ->].
    exists (more2 ++ more1)%list. by rewrite app_assoc.
Qed.

(** A user that a registration has just stored is the one later lookups by
    its email and by its id find, whatever was served in between. *)
Lemma registered_user_found req env db trace :
  statusCode (auth_register env_JWT_SECRET req env db).1 = 201%Z →
  ∃ fields name email password user,
    body req = VObj fields
    ∧ assoc "email" fields = Some (VStr email)
    ∧ assoc "password" fields = Some (VStr password)
    ∧ (1 ≤ js_length email)%nat ∧ zod_email email = true
    ∧ (6 ≤ js_length password)%nat
    ∧ user = User.mk (fresh_uuid env) name email
                     (bcrypt_hash password 10 (salt env))
                     (Some (now env)) (Some (now env))
    ∧ auth_register env_JWT_SECRET req env db
      = (json 201 (VObj [("token", VStr (issue_token env_JWT_SECRET user env));
                         ("user", public_user user)]),
         (auth_register env_JWT_SECRET req env db).2)
    ∧ getUserByEmail email
        (run env_JWT_SECRET trace (auth_register env_JWT_SECRET req env db).2)
      = Some user
    ∧ ∀ id,
        uuid_in id = Some (fresh_uuid env) →
        getUser id
          (run env_JWT_SECRET trace (auth_register env_JWT_SECRET req env db).2)
        = inr (Some user).
Proof.
  intros ([n e p c] & user & db1 & Hparse & _ & Hc & Hreg)%auth_register_created.
  destruct (body req) as [| | | | | |fields] eqn:Hbody; try done.
  apply registerSchema_accepts in Hparse
    as (_ & He & Hp & _ & _ & Hlen & Hemail & Hlen6 & _).
  apply createUser_inv in Hc as (Huser & Hdb1 & Hid & Hfree & _).
  cbn in Huser, Hfree, Hdb1.
  exists fields, n, e, p, user. rewrite Hreg. cbn [snd].
  destruct (run_users_app trace db1) as [more Hmore].
  split_and!; try done.
  - unfold getUserByEmail. rewrite Hmore, Hdb1. cbn [users].
    rewrite <- app_assoc. apply head_filter_first; [|by rewrite Huser].
    intros u Hu Heq. apply Hfree. rewrite <- Heq. by apply list_elem_of_fmap_2.
  - intros id Hread. rewrite (getUser_read _ _ _ Hread). f_equal.
    rewrite Hmore, Hdb1. cbn [users].
    rewrite <- app_assoc. apply head_filter_first; [|by rewrite Huser].
    intros u Hu Heq. apply Hid. rewrite <- Heq. by apply list_elem_of_fmap_2.
Qed.

(** Register, then log in.  After a registration that succeeded, and after
    any further requests, a login with the registered email and password
    is answered 200 with a token for, and the public fields of, the user
    the registration created, provided bcrypt accepts that password
    against the digest it made of it. *)
Theorem register_then_login (req1 req2 : Request) (env1 env2 : Env) (db : Db)
    (trace : list (Route * Request * Env)) (email password : string) :
  statusCode (auth_register env_JWT_SECRET req1 env1 db).1 = 201%Z →
  prop "email" (body req1) = Some (VStr email) →
  prop "password" (body req1) = Some (VStr password) →
  prop "email" (body req2) = Some (VStr email) →
  prop "password" (body req2) = Some (VStr password) →
  bcrypt_compare password (bcrypt_hash password 10 (salt env1)) = true →
  ∃ user,
    payload (auth_register env_JWT_SECRET req1 env1 db).1
    = Some (VObj [("token", VStr (issue_token env_JWT_SECRET user env1));
                  ("user", public_user user)])
    ∧ User.email user = email
    ∧ auth_login env_JWT_SECRET req2 env2
        (run env_JWT_SECRET trace (auth_register env_JWT_SECRET req1 env1 db).2)
      = (json 200 (VObj [("token", VStr (issue_token env_JWT_SECRET user env2));
                         ("user", public_user user)]),
         run env_JWT_SECRET trace (auth_register env_JWT_SECRET req1 env1 db).2).
Proof.
  intros Hreg He1 Hp1 He2 Hp2 Hbcrypt.
  destruct (registered_user_found req1 env1 db trace Hreg)
    as (fields & n & e & p & user & Hbody & He & Hp & Hlen & Hemail & Hlen6
        & Huser & Hres & Hfound & _).
  rewrite Hbody in He1, Hp1. cbn in He1, Hp1.
  assert (e = email) as -> by congruence.
  assert (p = password) as -> by congruence.
  exists user. split_and!.
  - by rewrite Hres.
  - by rewrite Huser.
  - destruct (body req2) as [| | | | | |fields2] eqn:Hbody2; try done.
    cbn in He2, Hp2.
    unfold auth_login. rewrite Hbody2.
    rewrite (proj2 (loginSchema_accepts fields2 email password)) by done.
    cbn [ld_email ld_password]. rewrite Hfound.
    replace (User.password user) with (bcrypt_hash password 10 (salt env1))
      by (by rewrite Huser).
    by rewrite Hbcrypt.
Qed.

(** The token a registration returns, sent back as a bearer token, is let
    through the gate as the registered user in every later state, and the
    current-user route answers with that user's public fields, provided
    jsonwebtoken verifies the token it signed back to its claims, the
    token is not empty and has no space in it, and the store reads the
    new user's id back from the text the driver spelled it as. *)
Theorem registered_token_authenticates (req1 req2 : Request) (env1 env2 : Env)
    (db : Db) (trace : list (Route * Request * Env)) :
  statusCode (auth_register env_JWT_SECRET req1 env1 db).1 = 201%Z →
  ∃ user token,
    payload (auth_register env_JWT_SECRET req1 env1 db).1
    = Some (VObj [("token", VStr token); ("user", public_user user)])
    ∧ User.id user = fresh_uuid env1
    ∧ token = jwt_sign (Claims.mk (uuid_out (User.id user)) (User.email user))
                       (JWT_SECRET env_JWT_SECRET) "7d" (now env1)
    ∧ (headers_authorization req2 = Some ("Bearer " ++ token) →
       token ≠ "" →
       has_char " " token = false →
       jwt_verify token (JWT_SECRET env_JWT_SECRET) (now env2)
       = Some (Claims.mk (uuid_out (User.id user)) (User.email user)) →
       authenticateToken env_JWT_SECRET req2 env2
       = inr (Claims.mk (uuid_out (User.id user)) (User.email user))
       ∧ (uuid_in (uuid_out (User.id user)) = Some (User.id user) →
          registerRoutes env_JWT_SECRET GET_auth_user req2 env2
            (run env_JWT_SECRET trace (auth_register env_JWT_SECRET req1 env1 db).2)
          = (json 200 (public_user user),
             run env_JWT_SECRET trace
               (auth_register env_JWT_SECRET req1 env1 db).2))).
Proof.
  intros Hreg.
  destruct (registered_user_found req1 env1 db trace Hreg)
    as (fields & n & e & p & user & _ & _ & _ & _ & _ & _
        & Huser & Hres & _ & Hfound).
  exists user, (issue_token env_JWT_SECRET user env1). split_and!.
  - by rewrite Hres.
  - by rewrite Huser.
  - done.
  - intros Hheader Hne Hsp Hverify.
    assert (authenticateToken env_JWT_SECRET req2 env2
            = inr (Claims.mk (uuid_out (User.id user)) (User.email user)))
      as Hauth.
    { unfold authenticateToken.
      rewrite Hheader, (bearer_token_Bearer _ Hne Hsp). by rewrite Hverify. }
    split; [done|]. intros Hread.
    cbn [registerRoutes]. unfold protected, auth_user. rewrite Hauth.
    cbn [Claims.userId]. rewrite Hfound; [done|].
    rewrite Hread. by rewrite Huser.
Qed.
End sessions_compose.

(** Ana registers, Bia registers, Ana logs in. *)
Lemma register_then_login_witness :
  ∃ user,
    User.email user = "ana@x.com"%string
    ∧ @auth_login Sample.externals None
        (Sample.anonymous (Sample.login_body "ana@x.com" "secret1"))
        (Sample.env 100 "")
        (@run Sample.externals None
           [(POST_auth_register,
             Sample.anonymous (Sample.register_body "Bia" "bia@x.com" "secret2" "secret2"),
             Sample.env 20 "u-bia")]
           (@auth_register Sample.externals None
              (Sample.anonymous (Sample.register_body "Ana" "ana@x.com" "secret1" "secret1"))
              (Sample.env 10 "u-ana") empty_db).2)
      = (json 200
           (VObj [("token"%string,
                   VStr (@issue_token Sample.externals None user (Sample.env 100 "")));
                  ("user"%string, @public_user Sample.externals user)]),
         @run Sample.externals None
           [(POST_auth_register,
             Sample.anonymous (Sample.register_body "Bia" "bia@x.com" "secret2" "secret2"),
             Sample.env 20 "u-bia")]
           (@auth_register Sample.externals None
              (Sample.anonymous (Sample.register_body "Ana" "ana@x.com" "secret1" "secret1"))
              (Sample.env 10 "u-ana") empty_db).2).
Proof.
  destruct (@register_then_login Sample.externals None
              (Sample.anonymous (Sample.register_body "Ana" "ana@x.com" "secret1" "secret1"))
              (Sample.anonymous (Sample.login_body "ana@x.com" "secret1"))
              (Sample.env 10 "u-ana") (Sample.env 100 "") empty_db
              [(POST_auth_register,
                Sample.anonymous (Sample.register_body "Bia" "bia@x.com" "secret2" "secret2"),
                Sample.env 20 "u-bia")]
              "ana@x.com"%string "secret1"%string)
    as (user & _ & Hemail & Hlogin); [vm_compute; reflexivity..|].
  by exists user.
Defined.

(** Ana registers and, after Bia has registered, asks who she is with the
    token she was given. *)
Lemma registered_token_authenticates_witness :
  @registerRoutes Sample.externals None GET_auth_user
    (Sample.as_user Sample.ana "" VNull) (Sample.env 100 "")
    (@run Sample.externals None
       [(POST_auth_register,
         Sample.anonymous (Sample.register_body "Bia" "bia@x.com" "secret2" "secret2"),
         Sample.env 20 "u-bia")]
       (@auth_register Sample.externals None
          (Sample.anonymous (Sample.register_body "Ana" "ana@x.com" "secret1" "secret1"))
          (Sample.env 10 "u-ana") empty_db).2)
  = (json 200 (VObj [("id", VStr "u-ana"); ("name", VStr "Ana");
                     ("email", VStr "ana@x.com")]%string),
     @run Sample.externals None
       [(POST_auth_register,
         Sample.anonymous (Sample.register_body "Bia" "bia@x.com" "secret2" "secret2"),
         Sample.env 20 "u-bia")]
       (@auth_register Sample.externals None
          (Sample.anonymous (Sample.register_body "Ana" "ana@x.com" "secret1" "secret1"))
          (Sample.env 10 "u-ana") empty_db).2).
Proof.
  destruct (@registered_token_authenticates Sample.externals None
              (Sample.anonymous (Sample.register_body "Ana" "ana@x.com" "secret1" "secret1"))
              (Sample.as_user Sample.ana "" VNull)
              (Sample.env 10 "u-ana") (Sample.env 100 "") empty_db
              [(POST_auth_register,
                Sample.anonymous (Sample.register_body "Bia" "bia@x.com" "secret2" "secret2"),
                Sample.env 20 "u-bia")])
    as (user & token & Hpayload & Hid & -> & Huse); [vm_compute; reflexivity|].
  destruct user as [i name email digest created updated].
  cbn in Hid. subst i. vm_compute in Hpayload.
  injection Hpayload as <- <-.
  destruct Huse as [_ Hroute];
    [first [vm_compute; reflexivity | by vm_compute]..|].
  by apply Hroute.
Defined.

(** ** Creating, reading and deleting projects *)

Section projects_compose.
Context `{Externals}.
Variable env_JWT_SECRET : option string.
Local Open Scope string_scope.

(** A project that has just been created is there to read.  When the
    create route answers 201 to a body whose name and description the
    store keeps as they are, the project it returns is the row as the
    store read it back: it has the store's fresh id, the validated name,
    description and status, the start date that the store reads back of
    the body's date, the user that the store reads the token's identity
    as for owner, and the clock as both timestamps.  It is appended to the
    table and nothing else changes; a fetch by a text that names its id,
    as the owner, returns it, the owner's list has it and is one longer,
    and the owner's total is one more. *)
Theorem created_project_is_readable (user : Claims.t) (req : Request)
    (env : Env) (db : Db) :
  statusCode (projects_create user req env db).1 = 201%Z →
  (∀ data, Zod.parse (projectSchema (body req)) = inr data →
           pg_varchar 255 (pd_name data) = true
           ∧ ∀ d, pd_description data = Some (Some d) → pg_text d = true) →
  ∃ data date startDate owner p,
    Zod.parse (projectSchema (body req)) = inr data
    ∧ Date_parse (pd_startDate data) = Some date
    ∧ pg_timestamp date = Some startDate
    ∧ uuid_in (Claims.userId user) = Some owner
    ∧ p = Project.mk (fresh_uuid env) (pd_name data)
                      (mjoin (pd_description data)) (pd_status data)
                      startDate owner (Some (now env)) (Some (now env))
    ∧ projects_create user req env db
      = (json 201 (Project.to_value p),
         {| users := users db; projects := (projects db ++ [p])%list |})
    ∧ (∀ id, uuid_in id = Some (fresh_uuid env) →
             getProject id (Claims.userId user)
               (projects_create user req env db).2 = inr (Some p))
    ∧ (∃ rows rows',
         getProjects (Claims.userId user) db = inr rows
         ∧ getProjects (Claims.userId user) (projects_create user req env db).2
           = inr rows'
         ∧ p ∈ rows' ∧ length rows' = S (length rows))
    ∧ (∃ stats stats',
         getProjectStats (Claims.userId user) db = inr stats
         ∧ getProjectStats (Claims.userId user)
             (projects_create user req env db).2 = inr stats'
         ∧ total stats' = S (total stats)).
Proof.
  unfold projects_create.
  destruct (Zod.parse _) as [errors|data] eqn:Hparse; [done|].
  destruct (Date_parse _) as [t|] eqn:Hdate; [|done].
  destruct (createProject _ _ _) as [err|[p db']] eqn:Hc; [done|].
  intros _ _.
  apply createProject_inv in Hc
    as (owner & t' & Howner & Ht' & Hp & -> & Hfresh & _).
  cbn in Hp, Hfresh, Howner, Ht'.
  assert (owned_by owner p) as Hown by (by rewrite Hp).
  assert (filter (owned_by owner) (projects db ++ [p])%list
          = (filter (owned_by owner) (projects db) ++ [p])%list)
    as Hfilter by (by rewrite filter_app, filter_cons_True).
  exists data, t, t', owner, p. cbn [fst snd]. split_and!; try done.
  - intros id Hid. rewrite (getProject_read _ _ _ _ _ Hid Howner).
    cbn [projects]. f_equal.
    rewrite filter_app, filter_none, filter_cons_True; [done| |].
    + split; [|done]. by rewrite Hp.
    + intros q Hq [Hqid _]. apply Hfresh.
      rewrite <- Hqid. by apply list_elem_of_fmap_2.
  - eexists _, _. rewrite !(getProjects_read _ _ _ Howner). cbn [projects].
    split_and!; [done|done|..].
    + rewrite merge_sort_Permutation, Hfilter, elem_of_app. right.
      by apply list_elem_of_singleton.
    + rewrite !merge_sort_Permutation, Hfilter, length_app. cbn. lia.
  - destruct (getProjectStats_read _ _ db Howner) as (s & Hs & Htotal & _).
    destruct (getProjectStats_read _ _
                {| users := users db; projects := (projects db ++ [p])%list |}
                Howner) as (s' & Hs' & Htotal' & _).
    exists s, s'. split_and!; [done|done|].
    rewrite Htotal, Htotal'. cbn [projects].
    rewrite Hfilter, length_app. cbn. lia.
Qed.

(** A verified token whose identity is not the id of any stored user (a
    token forged with a known secret, say, or one whose identity the store
    does not read as a uuid at all) cannot create a project: a valid body
    is answered 500 and nothing is stored, as the store refuses the owner
    reference.  So is a valid request when the id drawn for the row is
    already taken. *)
Theorem create_refused_by_store (req : Request) (env : Env) (db : Db)
    (user : Claims.t) (data : ProjectData) :
  authenticateToken env_JWT_SECRET req env = inr user →
  Zod.parse (projectSchema (body req)) = inr data →
  (∀ owner, uuid_in (Claims.userId user) = Some owner →
            owner ∉ User.id <$> users db)
  ∨ fresh_uuid env ∈ Project.id <$> projects db →
  registerRoutes env_JWT_SECRET POST_projects req env db
  = (json 500 (message "Erro ao criar projeto"), db).
Proof.
  intros Hauth Hparse Hrefused.
  cbn [registerRoutes]. unfold protected, projects_create.
  rewrite Hauth, Hparse.
  destruct (Date_parse _); [|done].
  unfold createProject. cbn [np_userId].
  destruct (uuid_in (Claims.userId user)) as [owner|]; [|done].
  destruct (pg_timestamp _); [|done].
  destruct (negb _); [done|].
  destruct Hrefused as [Hunknown|Htaken].
  - case_decide; [done|]. by rewrite decide_False by (by apply Hunknown).
  - by rewrite decide_True.
Qed.
End projects_compose.

Lemma created_project_is_readable_witness :
  @getProject Sample.externals "p-9" "u-bia"
    (@projects_create Sample.externals (Claims.mk "u-bia" "bia@x.com")
       {| headers_authorization := None; params_id := "";
          body := Sample.project_body "Loja" "andamento" "2025-01-01" |}
       (Sample.env 200 "p-9") Sample.db).2
  = inr (Some (Project.mk (Uuid 19) "Loja" None "andamento" 1735689600000
                          (Uuid 2) (Some 200%Z) (Some 200%Z))).
Proof.
  destruct (@created_project_is_readable Sample.externals
              (Claims.mk "u-bia" "bia@x.com")
              {| headers_authorization := None; params_id := "";
                 body := Sample.project_body "Loja" "andamento" "2025-01-01" |}
              (Sample.env 200 "p-9") Sample.db)
    as (data & date & t & owner & p & Hparse & Hdate & Ht & Howner & Hp & _
        & Hget & _).
  - vm_compute. reflexivity.
  - intros data Hparse. vm_compute in Hparse. injection Hparse as <-.
    split; [reflexivity|]. intros d. discriminate.
  - vm_compute in Hparse. injection Hparse as <-.
    vm_compute in Hdate. injection Hdate as <-.
    vm_compute in Ht. injection Ht as <-.
    vm_compute in Howner. injection Howner as <-.
    rewrite Hp in Hget. by apply Hget.
Defined.

(** A token forged for an id that no user has. *)
Lemma create_refused_by_store_witness :
  @registerRoutes Sample.externals None POST_projects
    {| headers_authorization := Some "Bearer your-secret-key:u-zed:z";
       params_id := "";
       body := Sample.project_body "Loja" "andamento" "2025-01-01" |}%string
    (Sample.env 200 "p-9") Sample.db
  = (json 500 (message "Erro ao criar projeto"), Sample.db).
Proof.
  apply (@create_refused_by_store Sample.externals None _ _ _
           (Claims.mk "u-zed" "z")
           {| pd_name := "Loja"; pd_description := None;
              pd_status := "andamento"; pd_startDate := "2025-01-01" |}).
  - reflexivity.
  - vm_compute. reflexivity.
  - left. intros owner [= <-]. compute_done.
Defined.

(** The row is returned as the store reads it back: for the start date
    0001-01-01 the sample store answers 201 with the first instant of
    2001. *)
Example created_project_read_back :
  (@projects_create Sample.externals (Claims.mk "u-bia" "bia@x.com")
     {| headers_authorization := None; params_id := "";
        body := Sample.project_body "Loja" "andamento" "0001-01-01" |}
     (Sample.env 200 "p-9") Sample.db).1
  = json 201
      (@Project.to_value Sample.externals
         (Project.mk (Uuid 19) "Loja" None "andamento" 978307200000
                     (Uuid 2) (Some 200%Z) (Some 200%Z))).
Proof. vm_compute. reflexivity. Qed.

(** ** The list, the fetch and the statistics agree *)

Lemma count_by_status_le (l : list Project.t) :
  length (filter (fun p => Project.status p = "pendente"%string) l)
  + length (filter (fun p => Project.status p = "andamento"%string) l)
  + length (filter (fun p => Project.status p = "concluido"%string) l)
  ≤ length l.
Proof.
  induction l as [|p l IH]; [done|].
  rewrite !filter_cons. repeat case_decide; cbn; try lia; congruence.
Qed.

(** What the three reads of one owner say is consistent.  The total of the
    statistics is the length of the owner's list; and where project ids are
    distinct (as in every reachable state), a project is in the owner's
    list exactly when fetching its id as that owner returns it. *)
Theorem reads_agree `{Externals} (db : Db) (userId : string) (owner : uuid) :
  uuid_in userId = Some owner →
  ∃ stats rows,
    getProjectStats userId db = inr stats
    ∧ getProjects userId db = inr rows
    ∧ total stats = length rows
    ∧ (pendente stats + andamento stats + concluido stats ≤ length rows)
    ∧ (∀ id p, getProject id userId db = inr (Some p) →
               uuid_in id = Some (Project.id p) ∧ p ∈ rows)
    ∧ (NoDup (Project.id <$> projects db) →
       ∀ id p, uuid_in id = Some (Project.id p) →
               (p ∈ rows ↔ getProject id userId db = inr (Some p))).
Proof.
  intros Howner.
  destruct (getProjectStats_read _ _ db Howner)
    as (stats & Hstats & Ht & Hp & Ha & Hc).
  exists stats, (merge_sort created_le (filter (owned_by owner) (projects db))).
  assert (∀ p, p ∈ merge_sort created_le (filter (owned_by owner) (projects db))
               ↔ p ∈ projects db ∧ Project.userId p = owner) as Hlist.
  { intros p. rewrite merge_sort_Permutation, list_elem_of_filter.
    unfold owned_by. tauto. }
  split_and!.
  - done.
  - by apply getProjects_read.
  - by rewrite Ht, merge_sort_Permutation.
  - rewrite Hp, Ha, Hc, merge_sort_Permutation. apply count_by_status_le.
  - intros id p. unfold getProject. rewrite Howner.
    destruct (uuid_in id) as [i|]; [|done].
    intros [= [Hin [Hid Hown]]%head_filter_elem].
    split; [by rewrite Hid|]. by apply Hlist.
  - intros Hpk id p Hid. rewrite Hlist, (getProject_read _ _ _ _ _ Hid Howner).
    split.
    + intros [Hin <-]. by rewrite select_own.
    + intros [= [Hin [_ Hown]]%head_filter_elem]. done.
Qed.

Lemma reads_agree_witness :
  @getProject Sample.externals "p-3" "u-ana" Sample.db = inr (Some Sample.blog)
  ∧ ∃ stats, @getProjectStats Sample.externals "u-ana" Sample.db = inr stats
             ∧ total stats = 2.
Proof.
  destruct (@reads_agree Sample.externals Sample.db "u-ana" (Uuid 1) eq_refl)
    as (stats & rows & Hstats & Hrows & Htotal & _ & _ & Hiff).
  vm_compute in Hrows. injection Hrows as <-.
  split.
  - apply (Hiff ltac:(compute_done) "p-3" Sample.blog eq_refl). compute_done.
  - exists stats. split; [done|]. by rewrite Htotal.
Defined.

(** ** Deleting and the statistics *)

(** Deleting one's project, where project ids are distinct: the table
    loses that row and no other, the owner's list loses it, and the
    owner's total goes down by one. *)
Theorem delete_removes_one `{Externals} (db : Db) (p : Project.t)
    (id userId : string) :
  NoDup (Project.id <$> projects db) → p ∈ projects db →
  uuid_in id = Some (Project.id p) →
  uuid_in userId = Some (Project.userId p) →
  ∃ db' rows rows' stats stats',
    deleteProject id userId db = inr (true, db')
    ∧ p :: projects db' ≡ₚ projects db
    ∧ getProjects userId db = inr rows
    ∧ getProjects userId db' = inr rows'
    ∧ p :: rows' ≡ₚ rows
    ∧ getProjectStats userId db = inr stats
    ∧ getProjectStats userId db' = inr stats'
    ∧ total stats = S (total stats')
    ∧ users db' = users db.
Proof.
  intros Hpk Hp Hid Howner.
  set (db' := {| users := users db;
                 projects :=
                   filter (fun q => ¬ id_and_owner (Project.id p)
                                        (Project.userId p) q) (projects db) |}).
  assert (p :: projects db' ≡ₚ projects db) as Hperm.
  { cbn. rewrite <- (filter_app_complement
                       (id_and_owner (Project.id p) (Project.userId p))
                       (projects db)) at 2.
    by rewrite select_own. }
  assert (p :: filter (owned_by (Project.userId p)) (projects db')
          ≡ₚ filter (owned_by (Project.userId p)) (projects db)) as Hown.
  { rewrite <- Hperm. by rewrite filter_cons_True. }
  destruct (getProjectStats_read _ _ db Howner) as (s & Hs & Htotal & _).
  destruct (getProjectStats_read _ _ db' Howner) as (s' & Hs' & Htotal' & _).
  exists db',
    (merge_sort created_le (filter (owned_by (Project.userId p)) (projects db))),
    (merge_sort created_le (filter (owned_by (Project.userId p)) (projects db'))),
    s, s'.
  split_and!.
  - rewrite (deleteProject_read _ _ _ _ _ Hid Howner). do 2 f_equal.
    apply bool_decide_eq_true. by apply (filter_hit_length _ _ p).
  - done.
  - by apply getProjects_read.
  - by apply getProjects_read.
  - by rewrite !merge_sort_Permutation.
  - done.
  - done.
  - by rewrite Htotal, Htotal', <- Hown.
  - done.
Qed.

Lemma delete_removes_one_witness :
  ∃ db' stats stats',
    @deleteProject Sample.externals "p-1" "u-ana" Sample.db = inr (true, db')
    ∧ @getProjectStats Sample.externals "u-ana" Sample.db = inr stats
    ∧ @getProjectStats Sample.externals "u-ana" db' = inr stats'
    ∧ total stats = S (total stats').
Proof.
  destruct (@delete_removes_one Sample.externals Sample.db Sample.site
              "p-1" "u-ana")
    as (db' & rows & rows' & stats & stats' & Hdel & _ & _ & _ & _ & Hs & Hs'
        & Htotal & _);
    [compute_done|compute_done|reflexivity|reflexivity|].
  by exists db', stats, stats'.
Defined.

(** ** Updating through the route *)

Lemma set_fields_idem values t p :
  set_fields values t (set_fields values t p) = set_fields values t p.
Proof. by destruct values as [[] [] [] []]. Qed.

Lemma set_fields_hit id userId values t p :
  id_and_owner id userId (set_fields values t p) ↔ id_and_owner id userId p.
Proof. done. Qed.

Lemma filter_hit_update id userId values t (l : list Project.t) :
  filter (id_and_owner id userId)
    ((fun p => if decide (id_and_owner id userId p)
               then set_fields values t p else p) <$> l)
  = set_fields values t <$> filter (id_and_owner id userId) l.
Proof.
  induction l as [|p l IH]; [done|].
  rewrite fmap_cons, !filter_cons, IH.
  destruct (decide (id_and_owner id userId p)) as [Hp|Hp].
  - rewrite decide_True by (by apply set_fields_hit). done.
  - by rewrite decide_False.
Qed.

Lemma updateProject_idem `{Externals} id userId updates env db row db' :
  updateProject id userId updates env db = inr (row, db') →
  updateProject id userId updates env db' = inr (row, db').
Proof.
  intros (i & u & values & t & Hid & Hu & Hv & Ht & -> & ->)%updateProject_inv.
  rewrite (updateProject_read _ _ _ _ _ _ _ _ _ Hid Hu Hv Ht).
  cbn [projects users]. do 2 f_equal.
  - rewrite filter_hit_update. destruct (filter _ (projects db)); [done|].
    cbn. by rewrite set_fields_idem.
  - f_equal. rewrite <- list_fmap_compose. apply list_fmap_ext.
    intros k p _. cbn.
    destruct (decide (id_and_owner i u p)) as [Hp|Hp].
    + rewrite decide_True by (by apply set_fields_hit).
      by rewrite set_fields_idem.
    + by rewrite decide_False.
Qed.

Section updating.
Context `{Externals}.
Local Open Scope string_scope.

(** PUT is idempotent: the same request served again at the same clock
    gets the same response and leaves the store as the first one left it. *)
Theorem put_is_idempotent (user : Claims.t) (req : Request) (env : Env) (db : Db) :
  projects_update user req env (projects_update user req env db).2
  = projects_update user req env db.
Proof.
  unfold projects_update.
  destruct (Zod.parse _) as [errors|data] eqn:Hparse; [done|].
  destruct (Date_parse _) as [t|] eqn:Hdate; [|done].
  destruct (updateProject _ _ _ _ db) as [error|[row db']] eqn:Hup.
  - cbn [snd]. by rewrite Hup.
  - apply updateProject_idem in Hup as Hagain.
    destruct row; cbn [snd]; by rewrite Hagain.
Qed.

(** What a PUT writes.  Where project ids are distinct, a PUT by the owner
    (the id in the path and the identity in the token are texts that the
    store reads as the project's id and its owner's) with a body the
    schema accepts, whose name, description and status the store keeps as
    they are and whose start date and clock it takes, is answered 200 with
    the project whose name and status are the body's and whose start date
    is the body's as the store reads it back; its description is the
    body's when the body has one, is cleared when the body says null, and
    is left as it was when the body has none; id, owner and creation time
    are unchanged and the update time is the clock.  When the store
    refuses the start date or the clock, the PUT is answered 500 and
    changes nothing. *)
Theorem put_writes (user : Claims.t) (req : Request) (env : Env) (db : Db)
    (p : Project.t) (fields : list (string * value)) (data : ProjectData)
    (date : Z) :
  NoDup (Project.id <$> projects db) →
  p ∈ projects db →
  uuid_in (params_id req) = Some (Project.id p) →
  uuid_in (Claims.userId user) = Some (Project.userId p) →
  body req = VObj fields →
  Zod.parse (projectSchema (VObj fields)) = inr data →
  Date_parse (pd_startDate data) = Some date →
  (∀ startDate updatedAt,
     pg_varchar 255 (pd_name data) = true →
     (∀ d, pd_description data = Some (Some d) → pg_text d = true) →
     pg_varchar 50 (pd_status data) = true →
     pg_timestamp date = Some startDate →
     pg_timestamp (now env) = Some updatedAt →
     ∃ p',
       (projects_update user req env db).1 = json 200 (Project.to_value p')
       ∧ getProject (params_id req) (Claims.userId user)
           (projects_update user req env db).2 = inr (Some p')
       ∧ assoc "name" fields = Some (VStr (Project.name p'))
       ∧ assoc "status" fields = Some (VStr (Project.status p'))
       ∧ assoc "startDate" fields = Some (VStr (pd_startDate data))
       ∧ Project.startDate p' = startDate
       ∧ Project.description p'
         = match assoc "description" fields with
           | None => Project.description p
           | Some (VStr s) => Some s
           | Some _ => None
           end
       ∧ Project.id p' = Project.id p
       ∧ Project.userId p' = Project.userId p
       ∧ Project.createdAt p' = Project.createdAt p
       ∧ Project.updatedAt p' = Some updatedAt)
  ∧ (pg_timestamp date = None ∨ pg_timestamp (now env) = None →
     projects_update user req env db
     = (json 500 (message "Erro ao atualizar projeto"), db)).
Proof.
  intros Hpk Hp Hid Hown Hbody Hparse Hdate.
  destruct data as [n d st sd].
  pose proof Hparse as (Hn & Hd & Hst & Hsd & _)%projectSchema_accepts.
  cbn [pd_startDate pd_name pd_description pd_status] in *.
  set (ups := {| up_name := Some n; up_description := d;
                 up_status := Some st; up_startDate := Some date |}).
  split.
  - intros t updatedAt Hvn Hvd Hvs Ht Hclock.
    assert (stored ups
            = Some {| up_name := Some n; up_description := d;
                      up_status := Some st; up_startDate := Some t |}) as Hv.
    { unfold stored, ups. cbn. rewrite Hvn, Hvs, Ht.
      destruct d as [[d'|]|]; cbn; [by rewrite (Hvd d' eq_refl)|done|done]. }
    set (values := {| up_name := Some n; up_description := d;
                      up_status := Some st; up_startDate := Some t |}) in *.
    unfold projects_update. rewrite Hbody, Hparse.
    cbn [pd_startDate pd_name pd_description pd_status]. rewrite Hdate.
    fold ups.
    rewrite (updateProject_read _ _ _ _ _ _ _ _ _ Hid Hown Hv Hclock).
    rewrite select_own by done. cbn [head fmap list_fmap fst snd].
    exists (set_fields values updatedAt p). split_and!; try done.
    + rewrite (getProject_read _ _ _ _ _ Hid Hown). cbn [projects].
      by rewrite filter_hit_update, select_own.
    + cbn. unfold Zod.optional_nullable_string in Hd.
      destruct (assoc "description" fields) as [[]|]; by simplify_eq.
  - intros Hrefused. unfold projects_update. rewrite Hbody, Hparse.
    cbn [pd_startDate pd_name pd_description pd_status]. rewrite Hdate.
    fold ups.
    assert (updateProject (params_id req) (Claims.userId user) ups env db
            = inl DataException) as ->; [|done].
    unfold updateProject, stored, ups. cbn.
    destruct Hrefused as [-> | ->]; by repeat case_match.
Qed.
End updating.

(** Ana renames "Site" with a body that has no description. *)
Lemma put_writes_witness :
  ∃ p',
    (@projects_update Sample.externals (Claims.mk "u-ana" "ana@x.com")
       {| headers_authorization := None; params_id := "p-1";
          body := Sample.project_body "Portal" "concluido" "2025-01-01" |}
       (Sample.env 300 "") Sample.db).1
    = json 200 (@Project.to_value Sample.externals p')
    ∧ Project.name p' = "Portal"%string
    ∧ Project.description p' = Project.description Sample.site
    ∧ Project.updatedAt p' = Some 300%Z.
Proof.
  destruct (@put_writes Sample.externals (Claims.mk "u-ana" "ana@x.com")
              {| headers_authorization := None; params_id := "p-1";
                 body := Sample.project_body "Portal" "concluido" "2025-01-01" |}
              (Sample.env 300 "") Sample.db Sample.site
              [("name", VStr "Portal"); ("status", VStr "concluido");
               ("startDate", VStr "2025-01-01")]%string
              {| pd_name := "Portal"; pd_description := None;
                 pd_status := "concluido"; pd_startDate := "2025-01-01" |}
              1735689600000%Z)
    as [Hwrites _];
    [compute_done|compute_done|reflexivity|reflexivity|reflexivity|
     vm_compute; reflexivity|reflexivity|].
  destruct (Hwrites 1735689600000%Z 300%Z)
    as (p' & Hres & _ & Hn & _ & _ & _ & Hd & _ & _ & _ & Ht);
    [reflexivity|discriminate|reflexivity|reflexivity|reflexivity|].
  exists p'. split_and!; try done. cbn in Hn. by injection Hn.
Defined.

(** ** When a registration succeeds *)

Lemma getUserByEmail_None email db :
  getUserByEmail email db = None ↔ email ∉ User.email <$> users db.
Proof.
  split.
  - intros Hnone Hin. apply getUserByEmail_is_Some in Hin as [u Hu]. congruence.
  - intros Hfree. unfold getUserByEmail. rewrite filter_none; [done|].
    intros u Hu Heq. apply Hfree. rewrite <- Heq. by apply list_elem_of_fmap_2.
Qed.

Section registering.
Context `{Externals}.
Variable env_JWT_SECRET : option string.
Local Open Scope string_scope.

(** For a body with the four fields as strings, whose name and email the
    store keeps as they are in their [varchar(255)] columns and whose
    digest it takes, registration answers 201 exactly when the name has
    length two or more (as JavaScript counts it, in UTF-16 code units),
    the email is not empty and passes zod's email test, the password has
    length six or more and the confirmation equals it, no stored user has
    the email, and the id drawn for the row is free.  It then appends one
    user, with the body's name and email, the bcrypt digest (cost 10) of
    the password and the clock as both timestamps, and changes nothing
    else. *)
Theorem register_succeeds_iff (req : Request) (env : Env) (db : Db)
    (fields : list (string * value)) (name email password confirmPassword : string) :
  body req = VObj fields →
  assoc "name" fields = Some (VStr name) →
  assoc "email" fields = Some (VStr email) →
  assoc "password" fields = Some (VStr password) →
  assoc "confirmPassword" fields = Some (VStr confirmPassword) →
  pg_varchar 255 name = true →
  pg_varchar 255 email = true →
  pg_text (bcrypt_hash password 10 (salt env)) = true →
  (statusCode (auth_register env_JWT_SECRET req env db).1 = 201%Z
   ↔ (2 ≤ js_length name)%nat
     ∧ (1 ≤ js_length email)%nat ∧ zod_email email = true
     ∧ (6 ≤ js_length password)%nat
     ∧ confirmPassword = password
     ∧ (email ∉ User.email <$> users db)
     ∧ (fresh_uuid env ∉ User.id <$> users db))
  ∧ (statusCode (auth_register env_JWT_SECRET req env db).1 = 201%Z →
     (auth_register env_JWT_SECRET req env db).2
     = {| users :=
            (users db
             ++ [User.mk (fresh_uuid env) name email
                         (bcrypt_hash password 10 (salt env))
                         (Some (now env)) (Some (now env))])%list;
          projects := projects db |}).
Proof.
  intros Hbody Hn He Hp Hc Hvn Hve Hvp.
  assert (statusCode (auth_register env_JWT_SECRET req env db).1 = 201%Z →
          Zod.parse (registerSchema (VObj fields))
          = inr {| rd_name := name; rd_email := email; rd_password := password;
                   rd_confirmPassword := confirmPassword |}
          ∧ (email ∉ User.email <$> users db)
          ∧ (fresh_uuid env ∉ User.id <$> users db)
          ∧ (auth_register env_JWT_SECRET req env db).2
            = {| users :=
                   (users db
                    ++ [User.mk (fresh_uuid env) name email
                                (bcrypt_hash password 10 (salt env))
                                (Some (now env)) (Some (now env))])%list;
                 projects := projects db |}) as Hthen.
  { intros ([n e p c] & user & db' & Hparse & Hnone & Hcreate & ->)%auth_register_created.
    rewrite Hbody in Hparse.
    pose proof Hparse as (Hn' & He' & Hp' & Hc' & _)%registerSchema_accepts.
    assert (n = name) as -> by congruence.
    assert (e = email) as -> by congruence.
    assert (p = password) as -> by congruence.
    assert (c = confirmPassword) as -> by congruence.
    apply createUser_inv in Hcreate as (-> & -> & Hid & Hfree & _).
    by split_and!. }
  split; [split|].
  - intros (Hparse & Hfree & Hid & _)%Hthen.
    apply registerSchema_accepts in Hparse
      as (_ & _ & _ & _ & ? & ? & ? & ? & ?).
    by split_and!.
  - intros (Hlen2 & Hlen1 & Hemail & Hlen6 & -> & Hfree & Hid).
    unfold auth_register. rewrite Hbody.
    rewrite (proj2 (registerSchema_accepts fields name email password password))
      by done.
    cbn [rd_email rd_name rd_password].
    rewrite (proj2 (getUserByEmail_None email db)) by done.
    by rewrite createUser_taken.
  - by intros (_ & _ & _ & ?)%Hthen.
Qed.
End registering.

Lemma register_succeeds_iff_witness :
  statusCode
    (@auth_register Sample.externals None
       (Sample.anonymous (Sample.register_body "Caio" "caio@x.com" "secret3" "secret3"))
       (Sample.env 400 "u-caio") Sample.db).1 = 201%Z
  ∧ statusCode
      (@auth_register Sample.externals None
         (Sample.anonymous (Sample.register_body "Caio" "caio@x.com" "secret3" "secret4"))
         (Sample.env 400 "u-caio") Sample.db).1 ≠ 201%Z.
Proof.
  split.
  - apply (@register_succeeds_iff Sample.externals None _ _ _
             [("name", VStr "Caio"); ("email", VStr "caio@x.com");
              ("password", VStr "secret3"); ("confirmPassword", VStr "secret3")]%string
             "Caio" "caio@x.com" "secret3" "secret3"); try reflexivity.
    split_and!; try compute_done.
  - intros Hok.
    destruct (@register_succeeds_iff Sample.externals None
                (Sample.anonymous
                   (Sample.register_body "Caio" "caio@x.com" "secret3" "secret4"))
                (Sample.env 400 "u-caio") Sample.db
                [("name", VStr "Caio"); ("email", VStr "caio@x.com");
                 ("password", VStr "secret3"); ("confirmPassword", VStr "secret4")]%string
                "Caio" "caio@x.com" "secret3" "secret4")
      as [[Hvalid _] _]; try reflexivity.
    by destruct (Hvalid Hok) as (_ & _ & _ & _ & ? & _).
Defined.

(** The length of a name is counted as JavaScript counts it, and the
    users table takes a name of at most 255 characters: the one-character
    name "é" is refused by the schema, and a name of 256 letters passes the
    schema and is refused by the sample store, so that the route answers
    500 and stores nothing. *)
Example register_name_lengths :
  js_length "é" = 1
  ∧ @auth_register Sample.externals None
      (Sample.anonymous (Sample.register_body "é" "caio@x.com" "secret3" "secret3"))
      (Sample.env 400 "u-caio") Sample.db
    = (json 400 (message "Nome deve ter pelo menos 2 caracteres"), Sample.db)
  ∧ @auth_register Sample.externals None
      (Sample.anonymous
         (Sample.register_body (String.concat "" (replicate 256 "a"))
                               "caio@x.com" "secret3" "secret3"))
      (Sample.env 400 "u-caio") Sample.db
    = (json 500 (message "Erro interno do servidor"), Sample.db).
Proof. split_and!; vm_compute; reflexivity. Qed.

(** ** The browser and the gate *)

Section browser.
Context `{Externals}.
Variable env_JWT_SECRET : option string.
Local Open Scope string_scope.

(** What [getAuthHeaders] sends is what [authenticateToken] reads.  With no
    token in the browser's storage, or an empty one, no header is sent and
    every protected route answers 401 without running its handler; a stored
    token with no space in it is exactly the token the gate extracts and
    verifies. *)
Theorem stored_token_reaches_gate (authToken : option string) (id : string)
    (b : value) (env : Env) :
  (authToken = None ∨ authToken = Some "" →
   ∀ h db,
     protected env_JWT_SECRET h
       {| headers_authorization := getAuthHeaders authToken;
          params_id := id; body := b |} env db
     = (json 401 (message "Token de acesso requerido"), db))
  ∧ (∀ token,
       authToken = Some token → token ≠ "" → has_char " " token = false →
       bearer_token (getAuthHeaders authToken) = Some token
       ∧ ∀ h db,
           protected env_JWT_SECRET h
             {| headers_authorization := getAuthHeaders authToken;
                params_id := id; body := b |} env db
           = match jwt_verify token (JWT_SECRET env_JWT_SECRET) (now env) with
             | Some user =>
                 h user {| headers_authorization := getAuthHeaders authToken;
                           params_id := id; body := b |} env db
             | None => (json 403 (message "Token inválido"), db)
             end).
Proof.
  split.
  - by intros [-> | ->] h db.
  - intros token -> Hne Hsp.
    assert (bearer_token (getAuthHeaders (Some token)) = Some token) as Htoken.
    { unfold getAuthHeaders. rewrite decide_False by done.
      by apply bearer_token_Bearer. }
    split; [done|]. intros h db. unfold protected, authenticateToken.
    cbn [headers_authorization]. rewrite Htoken.
    by destruct (jwt_verify _ _ _).
Qed.

(** The current-user query of [useAuth] against the server.  For a token
    with no space in it, the hook drops its token exactly when the gate
    refuses it (jsonwebtoken does not verify it); a verified token of a
    stored user resolves to that user's id, name and email; a verified
    token of nobody (404), or one whose identity the store does not read
    as a uuid (500), makes the query throw and keeps the token. *)
Theorem user_query_outcomes (token : string) (env : Env) (db : Db) :
  token ≠ "" → has_char " " token = false →
  (jwt_verify token (JWT_SECRET env_JWT_SECRET) (now env) = None →
   user_queryFn (Some token)
     (registerRoutes env_JWT_SECRET GET_auth_user (user_query_request token) env db).1
   = (None, Resolved VNull))
  ∧ (∀ claims,
       jwt_verify token (JWT_SECRET env_JWT_SECRET) (now env) = Some claims →
       user_queryFn (Some token)
         (registerRoutes env_JWT_SECRET GET_auth_user (user_query_request token) env db).1
       = (Some token,
          match getUser (Claims.userId claims) db with
          | inr (Some user) => Resolved (public_user user)
          | inr None | inl _ => Thrown "Failed to fetch user"
          end)).
Proof.
  intros Hne Hsp.
  assert (bearer_token (headers_authorization (user_query_request token))
          = Some token) as Htoken by (by apply bearer_token_Bearer).
  cbn [registerRoutes]. unfold protected, authenticateToken. rewrite Htoken.
  split.
  - by intros ->.
  - intros claims ->. unfold auth_user. by destruct (getUser _ _) as [e|[u|]].
Qed.
End browser.

(** A token signed with another secret is dropped by the hook; Ana's is
    kept and resolves to her. *)
Lemma user_query_outcomes_witness :
  user_queryFn (Some "other-key:u-ana:ana@x.com"%string)
    (@registerRoutes Sample.externals None GET_auth_user
       (user_query_request "other-key:u-ana:ana@x.com") (Sample.env 100 "")
       Sample.db).1
  = (None, Resolved VNull)
  ∧ user_queryFn (Some "your-secret-key:u-ana:ana@x.com"%string)
      (@registerRoutes Sample.externals None GET_auth_user
         (user_query_request "your-secret-key:u-ana:ana@x.com") (Sample.env 100 "")
         Sample.db).1
    = (Some "your-secret-key:u-ana:ana@x.com"%string,
       Resolved (@public_user Sample.externals Sample.ana)).
Proof.
  split.
  - apply (@user_query_outcomes Sample.externals None); [done|reflexivity|reflexivity].
  - apply (proj2 (@user_query_outcomes Sample.externals None
                    "your-secret-key:u-ana:ana@x.com" (Sample.env 100 "")
                    Sample.db ltac:(done) eq_refl)
             (Claims.mk "u-ana" "ana@x.com")).
    reflexivity.
Defined.

(** ** A refused body always names a rule *)

Section first_issue.
Context `{Externals}.
Variable env_JWT_SECRET : option string.
Local Open Scope string_scope.

Lemma parse_cases {A} (es : list string) (v : option A) :
  (v = None → es ≠ []) →
  (∃ a, Zod.parse (es, v) = inr a)
  ∨ (∃ first rest, Zod.parse (es, v) = inl (first :: rest)).
Proof.
  intros Hv. destruct es as [|first rest], v as [a|]; cbn; eauto.
  by destruct Hv.
Qed.

Lemma loginSchema_cases input :
  (∃ data, Zod.parse (loginSchema input) = inr data)
  ∨ (∃ first rest, Zod.parse (loginSchema input) = inl (first :: rest)).
Proof.
  destruct input; try (right; by eexists _, _).
  cbn -[Zod.string_].
  destruct (Zod.string_ _ (assoc "email" fields)) as [e1 v1] eqn:E1;
    destruct (Zod.string_ _ (assoc "password" fields)) as [e2 v2] eqn:E2.
  apply parse_cases. intros Hnone.
  pose proof (string_issues _ _ _ _ E1). pose proof (string_issues _ _ _ _ E2).
  unfold not in *.
  destruct v1, v2; simplify_eq/=; intros [? ?]%app_eq_nil; eauto.
Qed.

Lemma registerSchema_cases input :
  (∃ data, Zod.parse (registerSchema input) = inr data)
  ∨ (∃ first rest, Zod.parse (registerSchema input) = inl (first :: rest)).
Proof.
  destruct input; try (right; by eexists _, _).
  cbn -[Zod.string_].
  destruct (Zod.string_ _ (assoc "name" fields)) as [e1 v1] eqn:E1;
    destruct (Zod.string_ _ (assoc "email" fields)) as [e2 v2] eqn:E2;
    destruct (Zod.string_ _ (assoc "password" fields)) as [e3 v3] eqn:E3;
    destruct (Zod.string_ _ (assoc "confirmPassword" fields)) as [e4 v4] eqn:E4.
  apply parse_cases. intros Hnone.
  pose proof (string_issues _ _ _ _ E1). pose proof (string_issues _ _ _ _ E2).
  pose proof (string_issues _ _ _ _ E3). pose proof (string_issues _ _ _ _ E4).
  unfold not in *.
  destruct v1, v2, v3, v4; simplify_eq/=;
    repeat (intros [? Hrest]%app_eq_nil; revert Hrest); eauto.
Qed.

Lemma projectSchema_cases input :
  (∃ data, Zod.parse (projectSchema input) = inr data)
  ∨ (∃ first rest, Zod.parse (projectSchema input) = inl (first :: rest)).
Proof.
  destruct input; try (right; by eexists _, _).
  cbn -[Zod.string_ Zod.enum Zod.optional_nullable_string].
  destruct (Zod.string_ _ (assoc "name" fields)) as [e1 v1] eqn:E1;
    destruct (Zod.optional_nullable_string _) as [e2 v2] eqn:E2;
    destruct (Zod.enum _ _) as [e3 v3] eqn:E3;
    destruct (Zod.string_ _ (assoc "startDate" fields)) as [e4 v4] eqn:E4.
  apply parse_cases. intros Hnone.
  pose proof (string_issues _ _ _ _ E1).
  pose proof (optional_nullable_issues _ _ _ E2).
  pose proof (enum_issues _ _ _ _ E3). pose proof (string_issues _ _ _ _ E4).
  unfold not in *.
  destruct v1, v2, v3, v4; simplify_eq/=;
    repeat (intros [? Hrest]%app_eq_nil; revert Hrest); eauto.
Qed.

(** Whatever the body, each of the three schemas either accepts it or
    reports at least one issue, so [error.errors[0]] is always there: every
    400 of register, login, create and update that comes from validation
    carries the message of the first issue, and the store is untouched. *)
Theorem refused_body_names_rule (req : Request) (env : Env) (db : Db)
    (user : Claims.t) :
  ((∃ data, Zod.parse (registerSchema (body req)) = inr data)
   ∨ ∃ first rest,
       Zod.parse (registerSchema (body req)) = inl (first :: rest)
       ∧ auth_register env_JWT_SECRET req env db
         = (json 400 (message first), db))
  ∧ ((∃ data, Zod.parse (loginSchema (body req)) = inr data)
     ∨ ∃ first rest,
         Zod.parse (loginSchema (body req)) = inl (first :: rest)
         ∧ auth_login env_JWT_SECRET req env db
           = (json 400 (message first), db))
  ∧ ((∃ data, Zod.parse (projectSchema (body req)) = inr data)
     ∨ ∃ first rest,
         Zod.parse (projectSchema (body req)) = inl (first :: rest)
         ∧ projects_create user req env db = (json 400 (message first), db)
         ∧ projects_update user req env db = (json 400 (message first), db)).
Proof.
  split_and!.
  - destruct (registerSchema_cases (body req)) as [|(first & rest & Hparse)];
      [by left|right].
    exists first, rest. split; [done|]. unfold auth_register. by rewrite Hparse.
  - destruct (loginSchema_cases (body req)) as [|(first & rest & Hparse)];
      [by left|right].
    exists first, rest. split; [done|]. unfold auth_login. by rewrite Hparse.
  - destruct (projectSchema_cases (body req)) as [|(first & rest & Hparse)];
      [by left|right].
    exists first, rest. split_and!; [done|..].
    + unfold projects_create. by rewrite Hparse.
    + unfold projects_update. by rewrite Hparse.
Qed.
End first_issue.
